(** * Reverse proxy: dispatch pipeline

    A shallow embedding of the Go reverse proxy: the circuit breaker
    ([CircuitBreaker]), the sliding-window rate limiter ([RateLimiter]),
    the round-robin load balancer ([LoadBalancer]), the middleware chain
    ([Chain], [Logging]) and the terminal proxy handler ([ServeHTTP]),
    followed by the properties of the dispatch pipeline.

    Conventions.  Instants and durations are integers counting nanoseconds
    ([Time], [Duration]); an operation that reads the clock receives the
    instant it reads.  Go's [int] and [uint64] are integers with their
    wrap-around written out.  Mutexes are not modelled: every operation runs
    its critical section as one step. *)

From Stdlib Require Import ZArith String List Sorted Lia.
From stdpp Require Import gmap strings list.

Local Open Scope string_scope.
Local Open Scope list_scope.
Local Open Scope Z_scope.

(** ** Machine integers and time *)

(** [uint64] addition, as [atomic.AddUint64] and [start + uint64(i)] do it. *)
Definition uint64_add (x y : Z) : Z := (x + y) mod 2 ^ 64.

(** [int] addition on a 64-bit platform, as [failureCount++] does it. *)
Definition int_add (x y : Z) : Z := (x + y + 2 ^ 63) mod 2 ^ 64 - 2 ^ 63.

Abbreviation Time := Z.
Abbreviation Duration := Z.

(** [time.Second], in nanoseconds. *)
Definition Second : Duration := 1000000000.

(** The zero value of [time.Time], the content of a field never assigned. *)
Definition Time_zero : Time := 0.

(** [time.Since(t)] read at instant [now]; the durations at stake stay far
    from the bounds at which [time.Duration] saturates. *)
Definition Since (now t : Time) : Duration := now - t.

(** ** Circuit breaker *)

Inductive CircuitState : Set :=
| StateClosed
| StateOpen
| StateHalfOpen.

#[global] Instance CircuitState_eq_dec : EqDecision CircuitState.
Proof. solve_decision. Defined.

Record backendState : Set := mkBackendState {
  state : CircuitState;
  failureCount : Z;
  lastFailureTime : Time
}.

Record CircuitBreaker : Type := mkCircuitBreaker {
  backends : gmap string backendState;
  failureThreshold : Z;
  timeout : Duration
}.

Definition set_backends (m : gmap string backendState) (cb : CircuitBreaker)
  : CircuitBreaker :=
  {| backends := m;
     failureThreshold := failureThreshold cb;
     timeout := timeout cb |}.

Definition NewCircuitBreaker : CircuitBreaker :=
  {| backends := ∅; failureThreshold := 5; timeout := 10 * Second |}.

(** [&backendState{state: StateClosed}]: the other fields hold zero values. *)
Definition closedState : backendState :=
  {| state := StateClosed; failureCount := 0; lastFailureTime := Time_zero |}.

Definition OnBackendFailure (backend : string) (now : Time) (cb : CircuitBreaker)
  : CircuitBreaker :=
  let st := match backends cb !! backend with
            | Some st => st
            | None => closedState
            end in
  let count := int_add (failureCount st) 1 in
  let st' := {| state := if failureThreshold cb <=? count
                         then StateOpen else state st;
                failureCount := count;
                lastFailureTime := now |} in
  set_backends (<[backend := st']> (backends cb)) cb.

Definition OnBackendSuccess (backend : string) (cb : CircuitBreaker)
  : CircuitBreaker :=
  match backends cb !! backend with
  | None => cb
  | Some st =>
    let st' := {| state := match state st with
                           | StateHalfOpen => StateClosed
                           | s => s
                           end;
                  failureCount := 0;
                  lastFailureTime := lastFailureTime st |} in
    set_backends (<[backend := st']> (backends cb)) cb
  end.

Definition IsBackendOpen (backend : string) (now : Time) (cb : CircuitBreaker)
  : bool * CircuitBreaker :=
  match backends cb !! backend with
  | None => (false, set_backends (<[backend := closedState]> (backends cb)) cb)
  | Some st =>
    match state st with
    | StateOpen =>
      if timeout cb <? Since now (lastFailureTime st)
      then (false,
            set_backends
              (<[backend := {| state := StateHalfOpen;
                               failureCount := failureCount st;
                               lastFailureTime := lastFailureTime st |}]>
                 (backends cb)) cb)
      else (true, cb)
    | _ => (false, cb)
    end
  end.

(** The availability check of the specification: the negation the load
    balancer takes, [!lb.cb.IsBackendOpen(backend)]. *)
Definition IsAvailable (backend : string) (now : Time) (cb : CircuitBreaker)
  : bool * CircuitBreaker :=
  let '(open, cb') := IsBackendOpen backend now cb in (negb open, cb').

(** A run of availability checks on one backend, at the given instants. *)
Fixpoint IsAvailable_run (backend : string) (instants : list Time)
  (cb : CircuitBreaker) : list bool * CircuitBreaker :=
  match instants with
  | [] => ([], cb)
  | now :: rest =>
    let '(a, cb1) := IsAvailable backend now cb in
    let '(l, cb2) := IsAvailable_run backend rest cb1 in
    (a :: l, cb2)
  end.

(** ** Rate limiter *)

Record RateLimiter : Set := mkRateLimiter {
  timestamps : list Time;
  rps : Z
}.

(** [make([]time.Time, 0, rps)] panics on a negative capacity. *)
Definition NewRateLimiter (rps : Z) : option RateLimiter :=
  if rps <? 0 then None else Some {| timestamps := []; rps := rps |}.

(** The pruning loop of [Allow]: [k] iterations are left, [i] is the range
    index, [valid] the write index; the slice is compacted in place. *)
Fixpoint Allow_prune (window : Time) (k i valid : nat) (arr : list Time)
  : list Time * nat :=
  match k with
  | O => (arr, valid)
  | S k' =>
    match arr !! i with
    | Some ts =>
      if window <? ts
      then Allow_prune window k' (S i) (S valid) (<[valid := ts]> arr)
      else Allow_prune window k' (S i) valid arr
    | None => (arr, valid)
    end
  end.

Definition Allow (now : Time) (rl : RateLimiter) : bool * RateLimiter :=
  let window := now - Second in
  let '(arr, valid) :=
    Allow_prune window (length (timestamps rl)) 0 0 (timestamps rl) in
  let kept := take valid arr in
  if Z.of_nat (length kept) <? rps rl
  then (true, {| timestamps := kept ++ [now]; rps := rps rl |})
  else (false, {| timestamps := kept; rps := rps rl |}).

(** A run of [Allow] calls at the given instants: each call's answer. *)
Fixpoint Allow_run (instants : list Time) (rl : RateLimiter)
  : list bool * RateLimiter :=
  match instants with
  | [] => ([], rl)
  | now :: rest =>
    let '(ok, rl1) := Allow now rl in
    let '(l, rl2) := Allow_run rest rl1 in
    (ok :: l, rl2)
  end.

(** The instants of the calls that were admitted, in call order. *)
Fixpoint admitted (instants : list Time) (answers : list bool) : list Time :=
  match instants, answers with
  | now :: rest, ok :: l =>
    if ok then now :: admitted rest l else admitted rest l
  | _, _ => []
  end.

(** The trailing one-second window that ends at [t]: the instants after
    [t - Second], up to [t]; it is the window [Allow] keeps at [t]. *)
Definition in_window (t : Time) (ts : Time) : Prop :=
  t - Second < ts /\ ts <= t.

#[global] Instance in_window_dec t ts : Decision (in_window t ts).
Proof. unfold in_window. apply _. Defined.

(** What a limiter of limit [N] holds once the calls that produced the
    admissions [adm] have been served, the latest of them at [last]: the
    admissions after [last - Second], no more than [N] of them. *)
Definition window_inv (N : Z) (rl : RateLimiter) (adm : list Time)
  (last : Time) : Prop :=
  rps rl = N /\
  timestamps rl = filter (fun ts => last - Second < ts) adm /\
  Forall (fun ts => ts <= last) adm /\
  Z.of_nat (length (timestamps rl)) <= N.

(** No trailing window holds more than [N] of the admissions [adm]. *)
Definition window_bound (N : Z) (adm : list Time) : Prop :=
  forall t, Z.of_nat (length (filter (in_window t) adm)) <= N.

(** ** Load balancer *)

(** The [cb] field is a pointer to the server's circuit breaker: the
    breaker is passed alongside and returned, so every holder sees the
    same state. *)
Record LoadBalancer : Set := mkLoadBalancer {
  pool : list string;
  current : Z
}.

Definition New (backends : list string) : LoadBalancer :=
  {| pool := backends; current := 0 |}.

(** The scan loop of [Next]: [k] iterations are left, [i] is the loop
    variable. *)
Fixpoint Next_scan (pool : list string) (start : Z) (now : Time)
  (k : nat) (i : Z) (cb : CircuitBreaker) : string * CircuitBreaker :=
  match k with
  | O => ("", cb)
  | S k' =>
    let idx := uint64_add start i mod Z.of_nat (length pool) in
    match pool !! Z.to_nat idx with
    | Some backend =>
      let '(open, cb') := IsBackendOpen backend now cb in
      if open then Next_scan pool start now k' (i + 1) cb'
      else (backend, cb')
    | None => ("", cb)
    end
  end.

Definition Next (now : Time) (lb : LoadBalancer) (cb : CircuitBreaker)
  : string * LoadBalancer * CircuitBreaker :=
  if (length (pool lb) =? 0)%nat then ("", lb, cb)
  else
    let start := uint64_add (current lb) 1 in
    let '(backend, cb') :=
      Next_scan (pool lb) start now (length (pool lb)) 0 cb in
    (backend, {| pool := pool lb; current := start |}, cb').

(** A run of [Next] calls at the given instants: each call's answer. *)
Fixpoint Next_run (instants : list Time) (lb : LoadBalancer)
  (cb : CircuitBreaker) : list string * LoadBalancer * CircuitBreaker :=
  match instants with
  | [] => ([], lb, cb)
  | now :: rest =>
    let '(b, lb1, cb1) := Next now lb cb in
    let '(l, lb2, cb2) := Next_run rest lb1 cb1 in
    (b :: l, lb2, cb2)
  end.

(** ** Metrics *)

Record Metrics : Set := mkMetrics {
  RequestCount : Z;
  ResponseCount : Z;
  ErrorCount : Z
}.

Definition Metrics_New : Metrics :=
  {| RequestCount := 0; ResponseCount := 0; ErrorCount := 0 |}.

Definition IncRequest (m : Metrics) : Metrics :=
  {| RequestCount := uint64_add (RequestCount m) 1;
     ResponseCount := ResponseCount m;
     ErrorCount := ErrorCount m |}.

Definition IncResponse (m : Metrics) : Metrics :=
  {| RequestCount := RequestCount m;
     ResponseCount := uint64_add (ResponseCount m) 1;
     ErrorCount := ErrorCount m |}.

Definition IncError (m : Metrics) : Metrics :=
  {| RequestCount := RequestCount m;
     ResponseCount := ResponseCount m;
     ErrorCount := uint64_add (ErrorCount m) 1 |}.

(** ** The HTTP library, as far as the handlers use it *)

(** A body stream ([io.ReadCloser]): the chunks successive reads deliver,
    then end of file, or a read error when [readErr] is set. *)
Record Stream : Set := mkStream {
  chunks : list string;
  readErr : bool
}.

(** The inbound [*http.Request]: the fields the handlers read. *)
Record Request : Set := mkRequest {
  Method : string;
  URL_Host : string;
  URL_Path : string;
  URL_RawQuery : string;
  Header : list (string * string);
  Body : Stream
}.

(** The outbound request [http.NewRequest] returns: method, URL and body
    as given, and a fresh, empty header. *)
Record ProxyRequest : Set := mkProxyRequest {
  out_Method : string;
  out_URL : string;
  out_Header : list (string * string);
  out_Body : Stream
}.

(** The backend's [*http.Response]. *)
Record BackendResponse : Set := mkBackendResponse {
  resp_StatusCode : Z;
  resp_Header : list (string * string);
  resp_Body : Stream
}.

(** What the network does to one request: whether [http.NewRequest] rejects
    a method and URL, and what [client.Do] returns, [None] for an error,
    after how long. *)
Record Env : Type := mkEnv {
  NewRequest_err : string -> string -> bool;
  client_Do : ProxyRequest -> option BackendResponse * N
}.

Definition http_NewRequest (env : Env) (method url : string) (body : Stream)
  : option ProxyRequest :=
  if NewRequest_err env method url then None
  else Some {| out_Method := method; out_URL := url;
               out_Header := []; out_Body := body |}.

(** The [http.ResponseWriter] interface; [Write] also tells whether it
    failed. *)
Class http_ResponseWriter (W : Type) : Type := {
  Header_Set : string -> string -> W -> W;
  Header_Del : string -> W -> W;
  Write : string -> W -> W * bool;
  WriteHeader : Z -> W -> W
}.

(** The server's own writer, the one the caller's connection is behind:
    [hdr] is the header map handlers edit, [sent] the status line and the
    headers that went out (none yet when [None]), [body] the bytes written,
    [broken] whether the connection refuses writes.  The first [Write]
    without a [WriteHeader] sends status 200; a [WriteHeader] after the
    header went out is ignored. *)
Record response : Type := mkResponse {
  hdr : gmap string string;
  sent : option (Z * gmap string string);
  body : string;
  broken : bool
}.

Definition response_WriteHeader (code : Z) (r : response) : response :=
  match sent r with
  | Some _ => r
  | None => {| hdr := hdr r; sent := Some (code, hdr r);
               body := body r; broken := broken r |}
  end.

Definition response_Write (b : string) (r : response) : response * bool :=
  let r1 := response_WriteHeader 200 r in
  if broken r1 then (r1, true)
  else ({| hdr := hdr r1; sent := sent r1;
           body := body r1 +:+ b; broken := broken r1 |}, false).

#[global] Instance response_ResponseWriter : http_ResponseWriter response := {
  Header_Set k v r := {| hdr := <[k := v]> (hdr r); sent := sent r;
                         body := body r; broken := broken r |};
  Header_Del k r := {| hdr := delete k (hdr r); sent := sent r;
                       body := body r; broken := broken r |};
  Write := response_Write;
  WriteHeader := response_WriteHeader
}.

(** A writer on which nothing was written yet. *)
Definition fresh_response : response :=
  {| hdr := ∅; sent := None; body := ""; broken := false |}.

(** The line feed [fmt.Fprintln] appends. *)
Definition LF : string := String (Ascii.ascii_of_nat 10) EmptyString.

(** [http.Error]. *)
Definition http_Error {W} `{http_ResponseWriter W} (w : W) (error : string)
  (code : Z) : W :=
  let w := Header_Del "Content-Length" w in
  let w := Header_Set "Content-Type" "text/plain; charset=utf-8" w in
  let w := Header_Set "X-Content-Type-Options" "nosniff" w in
  let w := WriteHeader code w in
  fst (Write (error +:+ LF) w).

(** [io.Copy(dst, src)]: every chunk read is written; the copy stops with
    an error at the first failed write or at the stream's read error. *)
Fixpoint io_Copy_chunks {W} `{http_ResponseWriter W} (l : list string)
  (err : bool) (dst : W) : W * bool :=
  match l with
  | [] => (dst, err)
  | c :: rest =>
    if (String.length c =? 0)%nat then io_Copy_chunks rest err dst
    else
      let '(dst', failed) := Write c dst in
      if failed then (dst', true) else io_Copy_chunks rest err dst'
  end.

Definition io_Copy {W} `{http_ResponseWriter W} (dst : W) (src : Stream)
  : W * bool :=
  io_Copy_chunks (chunks src) (readErr src) dst.

(** The bytes of a stream, end to end. *)
Definition bytes (src : Stream) : string := foldr append "" (chunks src).

(** What the specification asks of the caller's response for a backend
    response: the same status, the same headers, the same body. *)
Definition verbatim (resp : BackendResponse) (r : response) : Prop :=
  sent r = Some (resp_StatusCode resp, list_to_map (resp_Header resp)) /\
  body r = bytes (resp_Body resp).

(** ** The status-capturing writer of the middleware package *)

Record ResponseWriter (W : Type) : Type := mkResponseWriter {
  inner : W;
  StatusCode : Z
}.
Arguments mkResponseWriter {W} _ _.
Arguments inner {W} _.
Arguments StatusCode {W} _.

(** [Header] and [Write] are promoted from the embedded writer;
    [WriteHeader] records the code before it delegates. *)
#[global] Instance ResponseWriter_ResponseWriter {W} `{http_ResponseWriter W}
  : http_ResponseWriter (ResponseWriter W) := {
  Header_Set k v rw :=
    {| inner := Header_Set k v (inner rw); StatusCode := StatusCode rw |};
  Header_Del k rw :=
    {| inner := Header_Del k (inner rw); StatusCode := StatusCode rw |};
  Write b rw :=
    let '(w, failed) := Write b (inner rw) in
    ({| inner := w; StatusCode := StatusCode rw |}, failed);
  WriteHeader code rw :=
    {| inner := WriteHeader code (inner rw); StatusCode := code |}
}.

(** [&ResponseWriter{ResponseWriter: w}]: [StatusCode] starts at zero. *)
Definition wrap {W} (w : W) : ResponseWriter W :=
  {| inner := w; StatusCode := 0 |}.

(** ** The server's state *)

(** A line handed to the logger: the arguments of the format string. *)
Inductive LogLine : Set :=
| LogError (message : string) (status : Z)
| LogRequest (method path : string) (status : Z) (duration : Duration).

(** Everything a request can read or change: the clock, the components the
    [Server] struct points to, the default logger's output and the
    requests handed to [client.Do], oldest first. *)
Record World : Type := mkWorld {
  clock : Time;
  metrics : Metrics;
  limiter : RateLimiter;
  lb : LoadBalancer;
  circuitBreak : CircuitBreaker;
  logged : list LogLine;
  forwarded : list ProxyRequest
}.

Definition set_metrics (m : Metrics) (s : World) : World :=
  {| clock := clock s; metrics := m; limiter := limiter s; lb := lb s;
     circuitBreak := circuitBreak s; logged := logged s;
     forwarded := forwarded s |}.

Definition set_limiter (rl : RateLimiter) (s : World) : World :=
  {| clock := clock s; metrics := metrics s; limiter := rl; lb := lb s;
     circuitBreak := circuitBreak s; logged := logged s;
     forwarded := forwarded s |}.

Definition set_lb (l : LoadBalancer) (s : World) : World :=
  {| clock := clock s; metrics := metrics s; limiter := limiter s; lb := l;
     circuitBreak := circuitBreak s; logged := logged s;
     forwarded := forwarded s |}.

Definition set_circuitBreak (cb : CircuitBreaker) (s : World) : World :=
  {| clock := clock s; metrics := metrics s; limiter := limiter s; lb := lb s;
     circuitBreak := cb; logged := logged s; forwarded := forwarded s |}.

Definition log_Printf (l : LogLine) (s : World) : World :=
  {| clock := clock s; metrics := metrics s; limiter := limiter s; lb := lb s;
     circuitBreak := circuitBreak s; logged := logged s ++ [l];
     forwarded := forwarded s |}.

(** [client.Do]: the request goes out, time passes, the answer is back. *)
Definition do_request (env : Env) (req : ProxyRequest) (s : World)
  : option BackendResponse * World :=
  let '(res, elapsed) := client_Do env req in
  (res,
   {| clock := clock s + Z.of_N elapsed; metrics := metrics s;
      limiter := limiter s; lb := lb s; circuitBreak := circuitBreak s;
      logged := logged s; forwarded := forwarded s ++ [req] |}).

(** ** Error responses *)

Record HTTPError : Set := mkHTTPError {
  Status : Z;
  Message : string
}.

Definition StatusTooManyRequests : Z := 429.
Definition StatusInternalServerError : Z := 500.
Definition StatusBadGateway : Z := 502.
Definition StatusServiceUnavailable : Z := 503.

Definition HandleError {W} `{http_ResponseWriter W} (w : W) (err : HTTPError)
  (s : World) : W * World :=
  let s := log_Printf (LogError (Message err) (Status err)) s in
  (http_Error w (Message err) (Status err), s).

(** The error response of one failing path: writer [w] has received one
    [http.Error] with the message and the code, one error line is logged,
    and the error counter is one higher when [counted], unchanged when
    not. *)
Definition error_response {W} `{http_ResponseWriter W} (w w' : W)
  (s s' : World) (msg : string) (code : Z) (counted : bool) : Prop :=
  w' = http_Error w msg code /\
  logged s' = logged s ++ [LogError msg code] /\
  ErrorCount (metrics s') =
    (if counted then uint64_add (ErrorCount (metrics s)) 1
     else ErrorCount (metrics s)).

(** ** Handlers and middleware *)

(** An [http.Handler]: [ServeHTTP(w, r)], for any writer. *)
Definition Handler : Type :=
  forall (W : Type), http_ResponseWriter W ->
    Env -> W -> Request -> World -> W * World.

Abbreviation Middleware := (Handler -> Handler).

(** The loop of [Chain]: [k] is [i + 1]. *)
Fixpoint Chain_loop (middleware : list Middleware) (k : nat) (h : Handler)
  : Handler :=
  match k with
  | O => h
  | S i =>
    match middleware !! i with
    | Some m => Chain_loop middleware i (m h)
    | None => h
    end
  end.

Definition Chain (h : Handler) (middleware : list Middleware) : Handler :=
  Chain_loop middleware (length middleware) h.

Definition Logging : Middleware := fun next W _ env w r s =>
  let start := clock s in
  let '(wrapped, s) := next _ _ env (wrap w) r s in
  (inner wrapped,
   log_Printf (LogRequest (Method r) (URL_Path r) (StatusCode wrapped)
                 (Since (clock s) start)) s).

Definition RateLimiter_Middleware : Middleware := fun next W _ env w r s =>
  let '(ok, rl) := Allow (clock s) (limiter s) in
  let s := set_limiter rl s in
  if negb ok then
    HandleError w {| Status := StatusTooManyRequests;
                     Message := "Rate limit exceeded" |} s
  else next _ _ env w r s.

Definition CircuitBreaker_Middleware : Middleware := fun next W _ env w r s =>
  let backend := URL_Host r in
  let '(open, cb) := IsBackendOpen backend (clock s) (circuitBreak s) in
  let s := set_circuitBreak cb s in
  if open then
    HandleError w {| Status := StatusServiceUnavailable;
                     Message := "Circuit breaker is open" |} s
  else
    let '(wrapped, s) := next _ _ env (wrap w) r s in
    let cb :=
      if 500 <=? StatusCode wrapped
      then OnBackendFailure backend (clock s) (circuitBreak s)
      else OnBackendSuccess backend (circuitBreak s) in
    (inner wrapped, set_circuitBreak cb s).

(** [p.lb.Next()], on the server's load balancer and circuit breaker. *)
Definition lb_Next (s : World) : string * World :=
  let '(backend, l, cb) := Next (clock s) (lb s) (circuitBreak s) in
  (backend, set_circuitBreak cb (set_lb l s)).

(** The URL the proxy request is made for. *)
Definition targetURL (backend : string) (r : Request) : string :=
  let url := backend +:+ URL_Path r in
  if decide (URL_RawQuery r = "") then url
  else url +:+ "?" +:+ URL_RawQuery r.

(** [ProxyHandler.ServeHTTP]. *)
Definition ServeHTTP : Handler := fun W _ env w r s =>
  let s := set_metrics (IncRequest (metrics s)) s in
  let wrapped := wrap w in
  let '(backend, s) := lb_Next s in
  if decide (backend = "") then
    let s := set_metrics (IncError (metrics s)) s in
    let '(wrapped, s) :=
      HandleError wrapped {| Status := StatusServiceUnavailable;
                             Message := "No backends available" |} s in
    (inner wrapped, s)
  else
    match http_NewRequest env (Method r) (targetURL backend r) (Body r) with
    | None =>
      let s := set_metrics (IncError (metrics s)) s in
      let '(wrapped, s) :=
        HandleError wrapped {| Status := StatusInternalServerError;
                               Message := "Error creating proxy request" |} s in
      (inner wrapped, s)
    | Some proxyReq =>
      match do_request env proxyReq s with
      | (None, s) =>
        let s := set_metrics (IncError (metrics s)) s in
        let s := set_circuitBreak
                   (OnBackendFailure backend (clock s) (circuitBreak s)) s in
        let '(wrapped, s) :=
          HandleError wrapped {| Status := StatusBadGateway;
                                 Message := "Error forwarding request" |} s in
        (inner wrapped, s)
      | (Some resp, s) =>
        let s := set_circuitBreak
                   (OnBackendSuccess backend (circuitBreak s)) s in
        let '(wrapped, failed) := io_Copy wrapped (resp_Body resp) in
        if failed then
          let s := set_metrics (IncError (metrics s)) s in
          let '(wrapped, s) :=
            HandleError wrapped {| Status := StatusInternalServerError;
                                   Message := "Error copying response" |} s in
          (inner wrapped, s)
        else (inner wrapped, set_metrics (IncResponse (metrics s)) s)
      end
    end.

(** The handler [createHandler] mounts on the proxy route ["/"]. *)
Definition createHandler : Handler :=
  Chain ServeHTTP
    [RateLimiter_Middleware; CircuitBreaker_Middleware; Logging].

(** The composition the specification describes: logging outermost, then
    the circuit breaker, the rate limiter innermost around the proxy. *)
Definition spec_createHandler : Handler :=
  Logging (CircuitBreaker_Middleware (RateLimiter_Middleware ServeHTTP)).

(** [NewServer]: the state a server starts from, at instant [t0]; [None]
    when the rate limiter cannot be built. *)
Definition NewServer (RateLimit : Z) (Backends : list string) (t0 : Time)
  : option World :=
  match NewRateLimiter RateLimit with
  | None => None
  | Some rl =>
    Some {| clock := t0; metrics := Metrics_New; limiter := rl;
            lb := New Backends; circuitBreak := NewCircuitBreaker;
            logged := []; forwarded := [] |}
  end.

(** ** Sample states *)

(** Four failures recorded under the default settings. *)
Definition four_failures : CircuitBreaker :=
  OnBackendFailure "a" 4 (OnBackendFailure "a" 3
    (OnBackendFailure "a" 2 (OnBackendFailure "a" 1 NewCircuitBreaker))).

(** The breaker opened by a fifth failure at instant 5. *)
Definition opened_at_5 : CircuitBreaker := OnBackendFailure "a" 5 four_failures.

(** The breaker of [four_failures] after the timeout made it half-open. *)
Definition half_open_a : CircuitBreaker :=
  snd (IsBackendOpen "a" (6 + 10 * Second) opened_at_5).


(** A pool of three backends whose counter has reached 4. *)
Definition three_backends : LoadBalancer :=
  {| pool := ["a"; "b"; "c"]; current := 4 |}.

(** A request for [/items?id=7] that carries one header and no body. *)
Definition sample_request : Request :=
  {| Method := "GET"; URL_Host := ""; URL_Path := "/items";
     URL_RawQuery := "id=7"; Header := [("Accept", "text/html")];
     Body := {| chunks := []; readErr := false |} |}.

(** The answer of a backend that does not know the item. *)
Definition not_found : BackendResponse :=
  {| resp_StatusCode := 404;
     resp_Header := [("Content-Type", "application/json")];
     resp_Body := {| chunks := ["not "; "found"]; readErr := false |} |}.

(** A network on which every backend answers [not_found] after 3 ns. *)
Definition env_not_found : Env :=
  {| NewRequest_err := fun _ _ => false;
     client_Do := fun _ => (Some not_found, 3%N) |}.

(** A network on which no backend can be reached. *)
Definition env_unreachable : Env :=
  {| NewRequest_err := fun _ _ => false;
     client_Do := fun _ => (None, 3%N) |}.

(** A network whose backends answer, and break off after the first chunk. *)
Definition env_truncated : Env :=
  {| NewRequest_err := fun _ _ => false;
     client_Do := fun _ =>
       (Some {| resp_StatusCode := 200; resp_Header := [];
                resp_Body := {| chunks := ["par"]; readErr := true |} |},
        3%N) |}.

(** A server in front of one backend, started at instant 0 with the
    default limit of 100 requests per second. *)
Definition one_backend_server : World :=
  {| clock := 0; metrics := Metrics_New;
     limiter := {| timestamps := []; rps := 100 |};
     lb := New ["http://localhost:8080"]; circuitBreak := NewCircuitBreaker;
     logged := []; forwarded := [] |}.

(** The same server with a limit of zero requests per second. *)
Definition zero_limit_server : World :=
  set_limiter {| timestamps := []; rps := 0 |} one_backend_server.

(** The same server without any backend. *)
Definition no_backend_server : World :=
  set_lb (New []) one_backend_server.

(** The same server after five failures recorded, at instant 0, for the
    target of [sample_request]: its circuit is open. *)
Definition tripped_server : World :=
  set_circuitBreak
    (Nat.iter 5 (OnBackendFailure (URL_Host sample_request) 0)
       NewCircuitBreaker)
    one_backend_server.

(** ** Runs of reports *)

(** Failure reports for one backend, at the given instants. *)
Fixpoint OnBackendFailure_run (backend : string) (instants : list Time)
  (cb : CircuitBreaker) : CircuitBreaker :=
  match instants with
  | [] => cb
  | now :: rest =>
    OnBackendFailure_run backend rest (OnBackendFailure backend now cb)
  end.

(** ** The admission window *)

(** The state of a limiter of limit [N] whose last call was served at
    instant [t]: it holds no more than [N] timestamps, all of them in the
    trailing window of [t], oldest first. *)
Definition AdmissionWindow (N : Z) (t : Time) (rl : RateLimiter) : Prop :=
  rps rl = N /\
  Z.of_nat (length (timestamps rl)) <= N /\
  Forall (in_window t) (timestamps rl) /\
  StronglySorted Z.le (timestamps rl).

(** ** Counters *)

(** Every request counted was answered or failed: the request counter is
    the sum of the two others, in [uint64] arithmetic. *)
Definition balanced (m : Metrics) : Prop :=
  RequestCount m = uint64_add (ResponseCount m) (ErrorCount m).

(** The request the proxy handler builds for a backend. *)
Definition proxyRequest (backend : string) (r : Request) : ProxyRequest :=
  {| out_Method := Method r; out_URL := targetURL backend r;
     out_Header := []; out_Body := Body r |}.

(** ** Calls on a writer *)

(** One call a handler makes on its writer. *)
Inductive WriterCall : Set :=
| CallSet (key value : string)
| CallDel (key : string)
| CallWrite (b : string)
| CallWriteHeader (code : Z).

(** The calls made one after the other. *)
Fixpoint calls {W} `{http_ResponseWriter W} (l : list WriterCall) (w : W) : W :=
  match l with
  | [] => w
  | CallSet k v :: rest => calls rest (Header_Set k v w)
  | CallDel k :: rest => calls rest (Header_Del k w)
  | CallWrite b :: rest => calls rest (Write b w).1
  | CallWriteHeader code :: rest => calls rest (WriteHeader code w)
  end.

(** The code of the last [WriteHeader] among the calls, [sc] if none. *)
Fixpoint last_code (l : list WriterCall) (sc : Z) : Z :=
  match l with
  | [] => sc
  | CallWriteHeader code :: rest => last_code rest code
  | _ :: rest => last_code rest sc
  end.

(** The header map [http.Error] leaves. *)
Definition error_headers (h : gmap string string) : gmap string string :=
  <["X-Content-Type-Options" := "nosniff"]>
    (<["Content-Type" := "text/plain; charset=utf-8"]>
       (delete "Content-Length" h)).

(** ** Configuration *)

Record Config : Set := mkConfig {
  ListenAddr : string;
  ReadTimeout : Duration;
  WriteTimeout : Duration;
  RateLimit : Z;
  Backends : list string
}.

(** What the command line gives for each flag, [None] for a flag left
    out. *)
Record Flags : Set := mkFlags {
  flag_listen : option string;
  flag_read_timeout : option Duration;
  flag_write_timeout : option Duration;
  flag_rate_limit : option Z;
  flag_backends : option string
}.

(** The comma, the separator of the backends flag. *)
Definition comma : Ascii.ascii := Ascii.ascii_of_nat 44.

(** [strings.Split(s, ",")]: the pieces of [s] between its commas. *)
Fixpoint Split_comma (s : string) : list string :=
  match s with
  | EmptyString => [""]
  | String c rest =>
    if Ascii.eqb c comma
    then "" :: Split_comma rest
    else match Split_comma rest with
         | piece :: pieces => String c piece :: pieces
         | [] => [String c ""]
         end
  end.

(** [strings.Join(pieces, ",")]. *)
Fixpoint Join_comma (pieces : list string) : string :=
  match pieces with
  | [] => ""
  | [piece] => piece
  | piece :: rest => piece +:+ "," +:+ Join_comma rest
  end.

(** Whether a string holds a comma. *)
Fixpoint has_comma (s : string) : bool :=
  match s with
  | EmptyString => false
  | String c rest => Ascii.eqb c comma || has_comma rest
  end.

(** [ParseFlags], given what the command line holds. *)
Definition ParseFlags (f : Flags) : Config :=
  {| ListenAddr := default ":3000" (flag_listen f);
     ReadTimeout := default (5 * Second) (flag_read_timeout f);
     WriteTimeout := default (10 * Second) (flag_write_timeout f);
     RateLimit := default 100 (flag_rate_limit f);
     Backends :=
       Split_comma (default "http://localhost:8080" (flag_backends f)) |}.

(** * Properties *)

(** ** Records *)

Lemma set_backends_backends m cb : backends (set_backends m cb) = m.
Proof. reflexivity. Qed.

(** ** Circuit breaker *)

Section CircuitBreakerFacts.

Variable backend : string.

(** What a failure report leaves in the record of its backend. *)
Lemma OnBackendFailure_lookup now cb :
  backends (OnBackendFailure backend now cb) !! backend =
  Some (let st := default closedState (backends cb !! backend) in
        let count := int_add (failureCount st) 1 in
        {| state := if failureThreshold cb <=? count
                    then StateOpen else state st;
           failureCount := count;
           lastFailureTime := now |}).
Proof.
  unfold OnBackendFailure. rewrite set_backends_backends, lookup_insert_eq.
  by destruct (backends cb !! backend).
Qed.

Lemma OnBackendFailure_timeout now cb :
  timeout (OnBackendFailure backend now cb) = timeout cb.
Proof. reflexivity. Qed.

(** An open backend is reported open, and nothing changes, until more than
    the timeout has passed since its last failure. *)
Lemma IsBackendOpen_open_early now cb st :
  backends cb !! backend = Some st ->
  state st = StateOpen ->
  Since now (lastFailureTime st) <= timeout cb ->
  IsBackendOpen backend now cb = (true, cb).
Proof.
  intros Hst Hopen Hle. unfold IsBackendOpen. rewrite Hst, Hopen.
  by rewrite (proj2 (Z.ltb_ge _ _) Hle).
Qed.

(** After the timeout the check moves the backend to half-open. *)
Lemma IsBackendOpen_open_late now cb st :
  backends cb !! backend = Some st ->
  state st = StateOpen ->
  timeout cb < Since now (lastFailureTime st) ->
  IsBackendOpen backend now cb =
  (false,
   set_backends
     (<[backend := {| state := StateHalfOpen;
                      failureCount := failureCount st;
                      lastFailureTime := lastFailureTime st |}]>
        (backends cb)) cb).
Proof.
  intros Hst Hopen Hlt. unfold IsBackendOpen. rewrite Hst, Hopen.
  by rewrite (proj2 (Z.ltb_lt _ _) Hlt).
Qed.

(** A backend that is not open is reported so, and keeps its record. *)
Lemma IsBackendOpen_not_open now cb st :
  backends cb !! backend = Some st ->
  state st <> StateOpen ->
  IsBackendOpen backend now cb = (false, cb).
Proof.
  intros Hst Hne. unfold IsBackendOpen. rewrite Hst.
  by destruct (state st).
Qed.

Lemma IsAvailable_run_app l1 l2 cb :
  IsAvailable_run backend (l1 ++ l2) cb =
  let '(r1, cb1) := IsAvailable_run backend l1 cb in
  let '(r2, cb2) := IsAvailable_run backend l2 cb1 in
  (r1 ++ r2, cb2).
Proof.
  revert cb. induction l1 as [|now l1 IH]; intros cb; simpl.
  - by destruct (IsAvailable_run backend l2 cb).
  - destruct (IsAvailable backend now cb) as [a cb1]. rewrite IH.
    destruct (IsAvailable_run backend l1 cb1) as [r1 cb2].
    by destruct (IsAvailable_run backend l2 cb2).
Qed.

(** Checks on an open backend within the timeout all answer no. *)
Lemma IsAvailable_run_open_early instants cb st :
  backends cb !! backend = Some st ->
  state st = StateOpen ->
  Forall (fun now => Since now (lastFailureTime st) <= timeout cb) instants ->
  IsAvailable_run backend instants cb =
  (replicate (length instants) false, cb).
Proof.
  intros Hst Hopen. induction 1 as [|now l Hnow _ IH]; [done|].
  simpl. unfold IsAvailable.
  rewrite (IsBackendOpen_open_early _ _ _ Hst Hopen Hnow). simpl.
  by rewrite IH.
Qed.

(** Checks on a backend that is not open all answer yes, whenever made. *)
Lemma IsAvailable_run_not_open instants cb st :
  backends cb !! backend = Some st ->
  state st <> StateOpen ->
  IsAvailable_run backend instants cb =
  (replicate (length instants) true, cb).
Proof.
  intros Hst Hne. induction instants as [|now l IH]; [done|].
  simpl. unfold IsAvailable.
  rewrite (IsBackendOpen_not_open _ _ _ Hst Hne). simpl.
  by rewrite IH.
Qed.

End CircuitBreakerFacts.

(** C3.  A failure report adds one to the failure count of its backend
    (a backend without a record counts from a closed record with no
    failures); when the count reaches the failure threshold the backend is
    open after the report, whatever its state was, closed included, and
    every availability check made while no more than the timeout has
    passed since the report answers no and changes nothing. *)
Theorem OnBackendFailure_opens_at_threshold
  (backend : string) (now : Time) (cb : CircuitBreaker)
  (instants : list Time) :
  let st := default closedState (backends cb !! backend) in
  let cb' := OnBackendFailure backend now cb in
  failureThreshold cb <= int_add (failureCount st) 1 ->
  Forall (fun t => Since t now <= timeout cb) instants ->
  exists st',
    backends cb' !! backend = Some st' /\
    failureCount st' = int_add (failureCount st) 1 /\
    state st' = StateOpen /\
    IsAvailable_run backend instants cb' =
    (replicate (length instants) false, cb').
Proof.
  intros st cb' Hreach Hsoon.
  pose proof (OnBackendFailure_lookup backend now cb) as Hlook.
  cbv zeta in Hlook. fold st in Hlook.
  rewrite (proj2 (Z.leb_le _ _) Hreach) in Hlook.
  eexists. split; [exact Hlook|]. split; [done|]. split; [done|].
  eapply IsAvailable_run_open_early; [exact Hlook|done|].
  exact Hsoon.
Qed.

Lemma OnBackendFailure_opens_at_threshold_witness :
  exists st',
    backends (OnBackendFailure "a" 5 four_failures) !! "a" = Some st' /\
    failureCount st' =
      int_add (failureCount
                 (default closedState (backends four_failures !! "a"))) 1 /\
    state st' = StateOpen /\
    IsAvailable_run "a" [5; 6; 5 + 10 * Second]
      (OnBackendFailure "a" 5 four_failures) =
    (replicate (length [5; 6; 5 + 10 * Second]) false,
     OnBackendFailure "a" 5 four_failures).
Proof.
  apply (OnBackendFailure_opens_at_threshold "a" 5 four_failures
           [5; 6; 5 + 10 * Second]).
  - vm_compute. discriminate.
  - repeat constructor; vm_compute; discriminate.
Defined.

(** C4.  For an open backend, the availability checks made while no more
    than the timeout has passed since the last failure all answer no; the
    first check made strictly later answers yes and leaves the backend
    half-open; the checks after it, whenever they are made, all answer yes
    and the backend is still half-open at the end. *)
Theorem IsAvailable_open_then_half_open
  (backend : string) (cb : CircuitBreaker) (st : backendState)
  (early : list Time) (t1 : Time) (late : list Time) :
  backends cb !! backend = Some st ->
  state st = StateOpen ->
  Forall (fun t => Since t (lastFailureTime st) <= timeout cb) early ->
  timeout cb < Since t1 (lastFailureTime st) ->
  exists cb1 cb2,
    IsAvailable_run backend (early ++ [t1]) cb =
      (replicate (length early) false ++ [true], cb1) /\
    state <$> backends cb1 !! backend = Some StateHalfOpen /\
    IsAvailable_run backend late cb1 =
      (replicate (length late) true, cb2) /\
    state <$> backends cb2 !! backend = Some StateHalfOpen /\
    IsAvailable_run backend (early ++ t1 :: late) cb =
      (replicate (length early) false ++ true :: replicate (length late) true,
       cb2).
Proof.
  intros Hst Hopen Hearly Hlate.
  pose proof (IsAvailable_run_open_early _ _ _ _ Hst Hopen Hearly) as He.
  pose proof (IsBackendOpen_open_late _ _ _ _ Hst Hopen Hlate) as H1.
  set (half := {| state := StateHalfOpen; failureCount := failureCount st;
                  lastFailureTime := lastFailureTime st |}) in *.
  set (cb1 := set_backends (<[backend := half]> (backends cb)) cb) in *.
  assert (Hl1 : backends cb1 !! backend = Some half)
    by (unfold cb1; by rewrite set_backends_backends, lookup_insert_eq).
  assert (Hl : IsAvailable_run backend late cb1 =
               (replicate (length late) true, cb1))
    by (by eapply IsAvailable_run_not_open).
  exists cb1, cb1. repeat split.
  - rewrite IsAvailable_run_app, He. simpl. unfold IsAvailable.
    by rewrite H1.
  - by rewrite Hl1.
  - done.
  - by rewrite Hl1.
  - rewrite IsAvailable_run_app, He. simpl. unfold IsAvailable.
    by rewrite H1, Hl.
Qed.

Lemma IsAvailable_open_then_half_open_witness :
  exists cb1 cb2,
    IsAvailable_run "a" ([6; 5 + 10 * Second] ++ [6 + 10 * Second])
      opened_at_5 =
      (replicate (length [6; 5 + 10 * Second]) false ++ [true], cb1) /\
    state <$> backends cb1 !! "a" = Some StateHalfOpen /\
    IsAvailable_run "a" [7 + 10 * Second; 7] cb1 =
      (replicate (length [7 + 10 * Second; 7]) true, cb2) /\
    state <$> backends cb2 !! "a" = Some StateHalfOpen /\
    IsAvailable_run "a"
      ([6; 5 + 10 * Second] ++ (6 + 10 * Second) :: [7 + 10 * Second; 7])
      opened_at_5 =
      (replicate (length [6; 5 + 10 * Second]) false
         ++ true :: replicate (length [7 + 10 * Second; 7]) true, cb2).
Proof.
  apply (IsAvailable_open_then_half_open "a" opened_at_5
           {| state := StateOpen; failureCount := 5; lastFailureTime := 5 |}).
  - vm_compute. reflexivity.
  - reflexivity.
  - repeat constructor; vm_compute; discriminate.
  - vm_compute. reflexivity.
Defined.

(** C9, as the code has it.  A success report on a backend that has a
    record sets its failure count to zero, moves it to closed when it was
    half-open and leaves its state alone otherwise; on a backend without a
    record it changes nothing, and creates no record. *)
Theorem OnBackendSuccess_record (backend : string) (cb : CircuitBreaker) :
  (forall st, backends cb !! backend = Some st ->
     backends (OnBackendSuccess backend cb) !! backend =
     Some {| state := if decide (state st = StateHalfOpen)
                      then StateClosed else state st;
             failureCount := 0;
             lastFailureTime := lastFailureTime st |}) /\
  (backends cb !! backend = None -> OnBackendSuccess backend cb = cb).
Proof.
  unfold OnBackendSuccess. split.
  - intros st ->. rewrite set_backends_backends, lookup_insert_eq.
    by destruct (state st).
  - by intros ->.
Qed.

Lemma OnBackendSuccess_record_witness :
  backends (OnBackendSuccess "a" half_open_a) !! "a" =
    Some {| state := StateClosed; failureCount := 0; lastFailureTime := 5 |} /\
  OnBackendSuccess "b" half_open_a = half_open_a.
Proof.
  split.
  - apply (proj1 (OnBackendSuccess_record "a" half_open_a)
             {| state := StateHalfOpen; failureCount := 5;
                lastFailureTime := 5 |}).
    vm_compute. reflexivity.
  - apply (proj2 (OnBackendSuccess_record "b" half_open_a)).
    vm_compute. reflexivity.
Defined.

(** C9, as stated, fails: a success report on a backend the breaker has
    never seen leaves the breaker without a record for it. *)
Lemma OnBackendSuccess_creates_no_record :
  backends (OnBackendSuccess "a" NewCircuitBreaker) !! "a" = None.
Proof. reflexivity. Qed.

(** ** Rate limiter *)

Section RateLimiterFacts.

(** The pruning loop compacts the slice to the timestamps after the window
    start, in their order. *)
Lemma Allow_prune_filter window orig k i valid arr :
  length arr = length orig ->
  (i + k = length orig)%nat ->
  (valid <= i)%nat ->
  drop i arr = drop i orig ->
  take valid arr = filter (fun ts => window < ts) (take i orig) ->
  let '(arr', valid') := Allow_prune window k i valid arr in
  take valid' arr' = filter (fun ts => window < ts) orig.
Proof.
  revert i valid arr.
  induction k as [|k IH]; intros i valid arr Hlen Hik Hvi Hdrop Htake;
    cbn [Allow_prune].
  - rewrite Htake. by rewrite take_ge by lia.
  - assert (Hi : (i < length orig)%nat) by lia.
    destruct (lookup_lt_is_Some_2 orig i Hi) as [ts Hts].
    assert (Harr : arr !! i = Some ts).
    { rewrite <- (Nat.add_0_r i), <- lookup_drop, Hdrop, lookup_drop.
      by rewrite Nat.add_0_r. }
    rewrite Harr.
    assert (Hnext : take (S i) orig = take i orig ++ [ts])
      by (by apply take_S_r).
    destruct (Z.ltb_spec window ts) as [Hin|Hout].
    + apply IH.
      * by rewrite length_insert.
      * lia.
      * lia.
      * rewrite drop_insert_lt by lia.
        replace (S i) with (i + 1)%nat by lia.
        by rewrite <- !drop_drop, Hdrop.
      * rewrite (take_S_r _ _ ts)
          by (apply list_lookup_insert_eq; lia).
        rewrite take_insert_ge by lia.
        rewrite Htake, Hnext, filter_app. f_equal.
        rewrite filter_cons_True by done. done.
    + apply IH; try done; try lia.
      * replace (S i) with (i + 1)%nat by lia.
        by rewrite <- !drop_drop, Hdrop.
      * rewrite Htake, Hnext, filter_app.
        rewrite filter_cons_False by lia. by rewrite app_nil_r.
Qed.

(** [Allow], call by call: the timestamps after [now - Second] are kept;
    the call is admitted, and [now] appended, exactly when fewer than
    [rps] of them remain. *)
Lemma Allow_filter now rl :
  Allow now rl =
  let kept := filter (fun ts => now - Second < ts) (timestamps rl) in
  if Z.of_nat (length kept) <? rps rl
  then (true, {| timestamps := kept ++ [now]; rps := rps rl |})
  else (false, {| timestamps := kept; rps := rps rl |}).
Proof.
  unfold Allow.
  pose proof (Allow_prune_filter (now - Second) (timestamps rl)
                (length (timestamps rl)) 0 0 (timestamps rl)) as H.
  destruct (Allow_prune _ _ _ _ _) as [arr valid].
  rewrite H; done.
Qed.

End RateLimiterFacts.

Section SlidingWindow.

Variable N : Z.

Lemma length_filter_impl (P Q : Time -> Prop)
  `{!forall x, Decision (P x)} `{!forall x, Decision (Q x)} (l : list Time) :
  Forall (fun x => P x -> Q x) l ->
  (length (filter P l) <= length (filter Q l))%nat.
Proof.
  induction 1 as [|x l Hx _ IH]; [done|].
  destruct (decide (P x)) as [HP|HP].
  - rewrite (filter_cons_True P) by done.
    rewrite (filter_cons_True Q) by auto. simpl. lia.
  - rewrite (filter_cons_False P) by done.
    destruct (decide (Q x)).
    + rewrite (filter_cons_True Q) by done. simpl. lia.
    + by rewrite (filter_cons_False Q).
Qed.

(** One call keeps the invariant and the bound. *)
Lemma Allow_step now rl adm last :
  window_inv N rl adm last ->
  window_bound N adm ->
  last <= now ->
  let '(ok, rl') := Allow now rl in
  let adm' := adm ++ (if ok then [now] else []) in
  window_inv N rl' adm' now /\ window_bound N adm'.
Proof.
  intros (Hrps & Hts & Hle & Hlen) Hbound Hnow.
  rewrite Allow_filter. cbv zeta.
  assert (Hkept : filter (fun ts => now - Second < ts) (timestamps rl) =
                  filter (fun ts => now - Second < ts) adm).
  { rewrite Hts. apply list_filter_filter_l. intros x. lia. }
  assert (Hle' : Forall (fun ts => ts <= now) adm).
  { eapply Forall_impl; [exact Hle|]. simpl. intros x. lia. }
  rewrite Hkept, Hrps.
  destruct (Z.ltb_spec
              (Z.of_nat (length (filter (fun ts => now - Second < ts) adm))) N)
    as [Hroom|Hfull].
  - assert (Hnew : filter (fun ts => now - Second < ts) (adm ++ [now]) =
                   filter (fun ts => now - Second < ts) adm ++ [now]).
    { rewrite filter_app. f_equal.
      rewrite filter_cons_True by (unfold Second; lia). done. }
    assert (Hlen' : Z.of_nat (length
                      (filter (fun ts => now - Second < ts) adm ++ [now]))
                    <= N).
    { rewrite length_app. simpl. lia. }
    split.
    + split; [done|]. split; [by rewrite Hnew|]. split; [|exact Hlen'].
      apply Forall_app. split; [done|]. repeat constructor. lia.
    + intros t. destruct (Z.le_gt_cases now t) as [Hnt|Htn].
      * rewrite <- Hnew in Hlen'.
        etransitivity; [|exact Hlen']. apply inj_le.
        apply length_filter_impl. apply Forall_app. split.
        -- eapply Forall_impl; [exact Hle'|]. simpl.
           unfold in_window. intros x. lia.
        -- repeat constructor. unfold in_window, Second. lia.
      * rewrite filter_app, filter_cons_False, app_nil_r
          by (unfold in_window; lia).
        apply Hbound.
  - rewrite app_nil_r. split; [|done].
    split; [done|]. split; [done|]. split; [done|].
    rewrite <- Hkept. etransitivity; [|exact Hlen].
    apply inj_le. apply length_filter.
Qed.

(** A run of calls at instants that do not go back keeps the bound. *)
Lemma Allow_run_bound instants rl adm last :
  window_inv N rl adm last ->
  window_bound N adm ->
  StronglySorted Z.le (last :: instants) ->
  window_bound N (adm ++ admitted instants (Allow_run instants rl).1).
Proof.
  revert rl adm last.
  induction instants as [|now rest IH]; intros rl adm last Hinv Hb Hs.
  - simpl. by rewrite app_nil_r.
  - apply StronglySorted_inv in Hs as [Hs Hall].
    pose proof (Allow_step now rl adm last Hinv Hb) as Hstep.
    apply Forall_cons in Hall as [Hnow _].
    specialize (Hstep Hnow). cbn [Allow_run].
    destruct (Allow now rl) as [ok rl1]. cbv zeta in Hstep.
    destruct Hstep as [Hinv1 Hb1].
    specialize (IH rl1 _ now Hinv1 Hb1 Hs).
    destruct (Allow_run rest rl1) as [l rl2]. simpl in *.
    destruct ok; simpl; [|by rewrite app_nil_r in IH].
    by rewrite <- app_assoc in IH.
Qed.

End SlidingWindow.

(** C5.  Each [Allow] call keeps the timestamps after [now - Second] and
    drops the others, then answers yes and appends [now] exactly when fewer
    than the limit remain, and answers no otherwise; after a call that
    answered yes the window holds no more timestamps than the limit.  For a
    limiter built with limit [N] and calls made at instants that do not go
    back, no trailing one-second window holds more than [N] admitted
    calls. *)
Theorem Allow_sliding_window
  (N : Z) (rl0 : RateLimiter) (instants : list Time) :
  NewRateLimiter N = Some rl0 ->
  StronglySorted Z.le instants ->
  (forall now rl,
     Allow now rl =
     let kept := filter (fun ts => now - Second < ts) (timestamps rl) in
     if Z.of_nat (length kept) <? rps rl
     then (true, {| timestamps := kept ++ [now]; rps := rps rl |})
     else (false, {| timestamps := kept; rps := rps rl |})) /\
  (forall now rl rl',
     Allow now rl = (true, rl') ->
     Z.of_nat (length (timestamps rl')) <= rps rl) /\
  (forall t,
     Z.of_nat (length (filter (in_window t)
                         (admitted instants (Allow_run instants rl0).1)))
     <= N).
Proof.
  intros Hnew Hsorted. split; [exact Allow_filter|]. split.
  - intros now rl rl'. rewrite Allow_filter. cbv zeta.
    destruct (Z.ltb_spec
                (Z.of_nat (length (filter (fun ts => now - Second < ts)
                                     (timestamps rl)))) (rps rl));
      [|discriminate].
    intros [= <-]. simpl. rewrite length_app. simpl. lia.
  - unfold NewRateLimiter in Hnew.
    destruct (Z.ltb_spec N 0) as [|HN]; [discriminate|].
    injection Hnew as <-.
    destruct instants as [|t0 rest]; [intros t; simpl; lia|].
    apply (Allow_run_bound N (t0 :: rest) {| timestamps := []; rps := N |}
             [] t0).
    + repeat split; simpl; [constructor|lia].
    + intros t. simpl. lia.
    + constructor; [done|]. constructor; [lia|].
      by apply StronglySorted_inv in Hsorted as [_ ?].
Qed.

Lemma Allow_sliding_window_witness :
  (forall now rl,
     Allow now rl =
     let kept := filter (fun ts => now - Second < ts) (timestamps rl) in
     if Z.of_nat (length kept) <? rps rl
     then (true, {| timestamps := kept ++ [now]; rps := rps rl |})
     else (false, {| timestamps := kept; rps := rps rl |})) /\
  (forall now rl rl',
     Allow now rl = (true, rl') ->
     Z.of_nat (length (timestamps rl')) <= rps rl) /\
  (forall t,
     Z.of_nat (length (filter (in_window t)
                         (admitted [0; 1; 2; Second + 1]
                            (Allow_run [0; 1; 2; Second + 1]
                               {| timestamps := []; rps := 2 |}).1)))
     <= 2).
Proof.
  apply (Allow_sliding_window 2 {| timestamps := []; rps := 2 |}
           [0; 1; 2; Second + 1]).
  - reflexivity.
  - repeat constructor; vm_compute; discriminate.
Defined.

(** Two calls exactly one second apart are both admitted under limit 1:
    the window is open at its older end. *)
Example Allow_run_one_second_apart :
  (Allow_run [0; Second] {| timestamps := []; rps := 1 |}).1 = [true; true].
Proof. reflexivity. Qed.

(** Three calls within one second under limit 2, and one a second later. *)
Example Allow_run_limit_2 :
  (Allow_run [0; 1; 2; Second + 1] {| timestamps := []; rps := 2 |}).1 =
  [true; true; false; true].
Proof. reflexivity. Qed.

(** ** Load balancer *)

Section LoadBalancerFacts.

(** A check that finds a backend available changes nothing, or gives the
    backend a record that is not open. *)
Lemma IsBackendOpen_available_effect b t cb :
  (IsBackendOpen b t cb).1 = false ->
  (IsBackendOpen b t cb).2 = cb \/
  exists st, state st <> StateOpen /\
    (IsBackendOpen b t cb).2 = set_backends (<[b := st]> (backends cb)) cb.
Proof.
  unfold IsBackendOpen.
  destruct (backends cb !! b) as [st|].
  - destruct (state st); [by left| |by left].
    destruct (timeout cb <? Since t (lastFailureTime st)); [|by intros [=]].
    intros _. right. by eexists; split; [|reflexivity].
  - intros _. right. by eexists; split; [|reflexivity].
Qed.

(** A check that found a backend available leaves available whatever was
    available, at any instant. *)
Lemma IsBackendOpen_keeps_available b t cb b' t' :
  (IsBackendOpen b t cb).1 = false ->
  (IsBackendOpen b' t' cb).1 = false ->
  (IsBackendOpen b' t' (IsBackendOpen b t cb).2).1 = false.
Proof.
  intros Hb H'.
  destruct (IsBackendOpen_available_effect b t cb Hb) as [->|(st & Hst & ->)];
    [done|].
  revert H'. unfold IsBackendOpen. rewrite set_backends_backends.
  destruct (decide (b = b')) as [<-|Hne].
  - rewrite lookup_insert_eq. by destruct (state st).
  - rewrite lookup_insert_ne by done. cbn [timeout set_backends].
    destruct (backends cb !! b') as [st'|]; [|done].
    destruct (state st'); [done| |done].
    by destruct (timeout cb <? Since t' (lastFailureTime st')).
Qed.

Lemma uint64_add_small x y :
  0 <= x + y < 2 ^ 64 -> uint64_add x y = x + y.
Proof. intros H. unfold uint64_add. by apply Z.mod_small. Qed.

(** On a pool whose candidate at the rotated offset is available, [Next]
    returns that candidate and advances the counter. *)
Lemma Next_first_available now lb cb b :
  0 <= current lb ->
  current lb + 1 < 2 ^ 64 ->
  pool lb !! Z.to_nat ((current lb + 1) mod Z.of_nat (length (pool lb)))
    = Some b ->
  (IsBackendOpen b now cb).1 = false ->
  Next now lb cb =
  (b, {| pool := pool lb; current := current lb + 1 |},
   (IsBackendOpen b now cb).2).
Proof.
  intros H0 Hmax Hb Hav. unfold Next.
  destruct (length (pool lb)) as [|k] eqn:Hlen.
  - apply lookup_lt_Some in Hb. lia.
  - simpl Nat.eqb. cbv iota. cbn [Next_scan].
    rewrite (uint64_add_small (current lb) 1) by lia.
    rewrite (uint64_add_small (current lb + 1) 0) by lia.
    rewrite Z.add_0_r, Hlen, Hb.
    destruct (IsBackendOpen b now cb) as [open cb']. simpl in Hav.
    by rewrite Hav.
Qed.

(** A run of [Next] calls on a pool whose backends are all available at
    the instants of the calls: call number [j] returns the candidate at
    offset [current + 1 + j]. *)
Lemma Next_run_available instants lb cb :
  pool lb <> [] ->
  0 <= current lb ->
  current lb + Z.of_nat (length instants) < 2 ^ 64 ->
  (forall b t, b ∈ pool lb -> t ∈ instants ->
     (IsBackendOpen b t cb).1 = false) ->
  length (Next_run instants lb cb).1.1 = length instants /\
  forall j : nat, (j < length instants)%nat ->
    (Next_run instants lb cb).1.1 !! j =
    pool lb !! Z.to_nat ((current lb + 1 + Z.of_nat j)
                           mod Z.of_nat (length (pool lb))).
Proof.
  intros Hne. revert lb cb Hne.
  induction instants as [|now rest IH]; intros lb cb Hne H0 Hmax Hav.
  - split; [done|]. simpl. lia.
  - assert (Hlen : (0 < length (pool lb))%nat)
      by (destruct (pool lb); [done|simpl; lia]).
    simpl length in Hmax.
    set (idx := Z.to_nat ((current lb + 1) mod Z.of_nat (length (pool lb)))).
    assert (Hidx : (idx < length (pool lb))%nat).
    { unfold idx.
      pose proof (Z.mod_pos_bound (current lb + 1)
                    (Z.of_nat (length (pool lb)))). lia. }
    destruct (lookup_lt_is_Some_2 _ _ Hidx) as [b Hb].
    assert (Hbin : b ∈ pool lb) by (eapply list_elem_of_lookup_2; eauto).
    assert (Hbav : (IsBackendOpen b now cb).1 = false)
      by (apply Hav; [done|left]).
    cbn [Next_run].
    rewrite (Next_first_available now lb cb b) by (done || lia).
    set (lb1 := {| pool := pool lb; current := current lb + 1 |}).
    destruct (IH lb1 (IsBackendOpen b now cb).2) as [IHlen IHj].
    + done.
    + simpl. lia.
    + simpl. lia.
    + intros b' t' Hb' Ht'. apply IsBackendOpen_keeps_available; [done|].
      apply Hav; [done|by right].
    + destruct (Next_run rest lb1 _) as [[l lb2] cb2]. simpl in *.
      split; [by rewrite IHlen|].
      intros [|j] Hj; simpl.
      * by rewrite Z.add_0_r.
      * rewrite IHj by lia. do 3 f_equal. lia.
Qed.

End LoadBalancerFacts.

(** C6, as the code has it.  On an empty pool [Next] returns the empty
    string and leaves the counter alone.  On a pool that is not empty
    every call, whatever it returns, adds one to the counter, modulo
    [2 ^ 64].  On a pool of [K >= 1] backends that are all available at the
    instants of the calls, [K] consecutive calls during which the counter
    does not wrap return the pool rotated to the offset the counter had
    reached: each entry once, in rotation order. *)
Theorem Next_round_robin
  (lb : LoadBalancer) (cb : CircuitBreaker) (instants : list Time) :
  (pool lb = [] -> forall now, Next now lb cb = ("", lb, cb)) /\
  (pool lb <> [] -> forall now,
     current (Next now lb cb).1.2 = uint64_add (current lb) 1) /\
  (pool lb <> [] ->
   length instants = length (pool lb) ->
   0 <= current lb ->
   current lb + Z.of_nat (length (pool lb)) < 2 ^ 64 ->
   (forall b t, b ∈ pool lb -> t ∈ instants ->
      (IsBackendOpen b t cb).1 = false) ->
   (Next_run instants lb cb).1.1 =
   rotate (Z.to_nat (current lb + 1)) (pool lb)).
Proof.
  split; [|split].
  - intros Hempty now. unfold Next. by rewrite Hempty.
  - intros Hne now. unfold Next.
    destruct (pool lb) as [|b l] eqn:Hpool; [done|]. simpl Nat.eqb. cbv iota.
    by destruct (Next_scan _ _ _ _ _ _).
  - intros Hne Hlen H0 Hmax Hav.
    destruct (Next_run_available instants lb cb) as [Hl Hj];
      [done|done|lia|done|].
    apply list_eq. intros j.
    destruct (decide (j < length (pool lb))%nat) as [Hlt|Hge].
    + rewrite Hj by lia. rewrite lookup_rotate_r by done.
      unfold rotate_nat_add. do 3 f_equal. lia.
    + rewrite !lookup_ge_None_2; [done| |].
      * rewrite length_rotate. lia.
      * lia.
Qed.

Lemma Next_round_robin_witness :
  Next 0 (New []) NewCircuitBreaker = ("", New [], NewCircuitBreaker) /\
  current (Next 7 three_backends NewCircuitBreaker).1.2 = 5 /\
  (Next_run [7; 8; 9] three_backends NewCircuitBreaker).1.1 =
    ["c"; "a"; "b"].
Proof.
  split; [|split].
  - apply (proj1 (Next_round_robin (New []) NewCircuitBreaker [])).
    reflexivity.
  - apply (proj1 (proj2 (Next_round_robin three_backends NewCircuitBreaker
                           [7; 8; 9]))).
    discriminate.
  - apply (proj2 (proj2 (Next_round_robin three_backends NewCircuitBreaker
                           [7; 8; 9]))).
    + discriminate.
    + reflexivity.
    + vm_compute. discriminate.
    + vm_compute. reflexivity.
    + intros b t _ _. reflexivity.
Defined.

(** C6, as stated, fails: a call on an empty pool returns the empty
    string and does not move the counter. *)
Lemma Next_empty_pool_keeps_counter :
  (Next 0 (New []) NewCircuitBreaker).1.1 = "" /\
  current (Next 0 (New []) NewCircuitBreaker).1.2 = current (New []) /\
  current (Next 0 (New []) NewCircuitBreaker).1.2 <> current (New []) + 1.
Proof. repeat split. discriminate. Qed.

(** A pool whose backends are all open: the call returns the empty string
    and the counter moves all the same. *)
Example Next_all_open :
  let cb := Nat.iter 5 (OnBackendFailure "a" 0) NewCircuitBreaker in
  (Next 1 (New ["a"]) cb).1 = ("", {| pool := ["a"]; current := 1 |}).
Proof. vm_compute. reflexivity. Qed.

(** ** Writers *)

Section WriterFacts.

Context {W : Type} `{HW : http_ResponseWriter W}.

(** An error written through the capturing writer reaches the writer
    below, and the code is recorded. *)
Lemma http_Error_wrapped (w : W) (sc : Z) (msg : string) (code : Z) :
  http_Error {| inner := w; StatusCode := sc |} msg code =
  {| inner := http_Error w msg code; StatusCode := code |}.
Proof.
  unfold http_Error. cbn.
  by destruct (Write (msg +:+ LF) _).
Qed.

(** A copy through the capturing writer is the copy on the writer below;
    the recorded status is not touched. *)
Lemma io_Copy_chunks_wrapped (l : list string) (err : bool) (w : W) (sc : Z) :
  io_Copy_chunks l err {| inner := w; StatusCode := sc |} =
  ({| inner := (io_Copy_chunks l err w).1; StatusCode := sc |},
   (io_Copy_chunks l err w).2).
Proof.
  revert w. induction l as [|c l IH]; intros w; [done|].
  cbn [io_Copy_chunks]. destruct (String.length c =? 0)%nat; [apply IH|].
  cbn [Write ResponseWriter_ResponseWriter inner StatusCode].
  destruct (Write c w) as [w' failed].
  destruct failed; [done|apply IH].
Qed.

Lemma io_Copy_wrapped (src : Stream) (w : W) :
  io_Copy (wrap w) src =
  ({| inner := (io_Copy w src).1; StatusCode := 0 |}, (io_Copy w src).2).
Proof. apply io_Copy_chunks_wrapped. Qed.

End WriterFacts.

Lemma append_assoc (a b c : string) : (a +:+ b) +:+ c = a +:+ (b +:+ c).
Proof.
  induction a as [|x a IH]; [done|].
  change (String x ((a +:+ b) +:+ c) = String x (a +:+ (b +:+ c))).
  by rewrite IH.
Qed.

Lemma append_empty_r (a : string) : a +:+ "" = a.
Proof.
  induction a as [|x a IH]; [done|].
  change (String x (a +:+ "") = String x a). by rewrite IH.
Qed.

(** A copy to a connection that takes writes: the chunks arrive end to
    end; the first chunk that is not empty sends status 200 with the
    headers as they are, unless a status went out before. *)
Lemma io_Copy_chunks_response (l : list string) (err : bool) (r : response) :
  broken r = false ->
  io_Copy_chunks l err r =
  ({| hdr := hdr r;
      sent := if decide (foldr append "" l = "") then sent r
              else Some (default (200, hdr r) (sent r));
      body := body r +:+ foldr append "" l;
      broken := false |}, err).
Proof.
  revert r. induction l as [|c l IH]; intros r Hr.
  - simpl. rewrite append_empty_r. destruct r; simpl in *. by subst.
  - cbn [io_Copy_chunks foldr]. destruct c as [|x c].
    + simpl. by apply IH.
    + cbn [String.length Nat.eqb Write response_ResponseWriter].
      unfold response_Write, response_WriteHeader.
      destruct (sent r) as [st|] eqn:Hsent.
      * rewrite Hr, IH by done. cbn. rewrite Hsent, append_assoc.
        by destruct (decide _).
      * cbn. rewrite Hr, IH by done. cbn. rewrite append_assoc.
        by destruct (decide _).
Qed.

(** ** The proxy handler, path by path *)

Section DispatcherFacts.

Context {W : Type} `{HW : http_ResponseWriter W}.
Variables (env : Env) (w : W) (r : Request) (s : World).
Variables (backend : string) (lb1 : LoadBalancer) (cb1 : CircuitBreaker).

Hypothesis HNext :
  Next (clock s) (lb s) (circuitBreak s) = (backend, lb1, cb1).

(** The request handed to the backend. *)
Let proxyReq : ProxyRequest :=
  {| out_Method := Method r; out_URL := targetURL backend r;
     out_Header := []; out_Body := Body r |}.

(** No backend: one error counted, one 503 written, nothing forwarded. *)
Lemma ServeHTTP_no_backend :
  backend = "" ->
  ServeHTTP W _ env w r s =
  (http_Error w "No backends available" StatusServiceUnavailable,
   {| clock := clock s; metrics := IncError (IncRequest (metrics s));
      limiter := limiter s; lb := lb1; circuitBreak := cb1;
      logged := logged s ++
                [LogError "No backends available" StatusServiceUnavailable];
      forwarded := forwarded s |}).
Proof.
  intros Hb. unfold ServeHTTP, lb_Next.
  cbn [clock lb circuitBreak set_metrics]. rewrite HNext.
  destruct (decide (backend = "")) as [_|]; [|done].
  unfold HandleError, wrap. by rewrite http_Error_wrapped.
Qed.

(** The request could not be built: one error counted, one 500 written. *)
Lemma ServeHTTP_bad_request :
  backend <> "" ->
  NewRequest_err env (Method r) (targetURL backend r) = true ->
  ServeHTTP W _ env w r s =
  (http_Error w "Error creating proxy request" StatusInternalServerError,
   {| clock := clock s; metrics := IncError (IncRequest (metrics s));
      limiter := limiter s; lb := lb1; circuitBreak := cb1;
      logged := logged s ++
                [LogError "Error creating proxy request"
                   StatusInternalServerError];
      forwarded := forwarded s |}).
Proof.
  intros Hb Herr. unfold ServeHTTP, lb_Next.
  cbn [clock lb circuitBreak set_metrics]. rewrite HNext.
  destruct (decide (backend = "")) as [|_]; [done|].
  unfold http_NewRequest. rewrite Herr.
  unfold HandleError, wrap. by rewrite http_Error_wrapped.
Qed.

(** The backend could not be reached: one error counted, one failure
    reported for the backend, one 502 written. *)
Lemma ServeHTTP_unreachable (elapsed : N) :
  backend <> "" ->
  NewRequest_err env (Method r) (targetURL backend r) = false ->
  client_Do env proxyReq = (None, elapsed) ->
  ServeHTTP W _ env w r s =
  (http_Error w "Error forwarding request" StatusBadGateway,
   {| clock := clock s + Z.of_N elapsed;
      metrics := IncError (IncRequest (metrics s));
      limiter := limiter s; lb := lb1;
      circuitBreak :=
        OnBackendFailure backend (clock s + Z.of_N elapsed) cb1;
      logged := logged s ++
                [LogError "Error forwarding request" StatusBadGateway];
      forwarded := forwarded s ++ [proxyReq] |}).
Proof.
  intros Hb Herr HDo. unfold ServeHTTP, lb_Next.
  cbn [clock lb circuitBreak set_metrics]. rewrite HNext.
  destruct (decide (backend = "")) as [|_]; [done|].
  unfold http_NewRequest. rewrite Herr.
  unfold do_request. fold proxyReq. rewrite HDo.
  unfold HandleError, wrap. by rewrite http_Error_wrapped.
Qed.

(** The backend answered: a success is reported for it and its body is
    copied to the caller; a complete copy counts one response, a failed
    one counts one error and writes one 500 after what was copied. *)
Lemma ServeHTTP_answered (resp : BackendResponse) (elapsed : N) :
  backend <> "" ->
  NewRequest_err env (Method r) (targetURL backend r) = false ->
  client_Do env proxyReq = (Some resp, elapsed) ->
  ServeHTTP W _ env w r s =
  let '(w1, failed) := io_Copy w (resp_Body resp) in
  if failed then
    (http_Error w1 "Error copying response" StatusInternalServerError,
     {| clock := clock s + Z.of_N elapsed;
        metrics := IncError (IncRequest (metrics s));
        limiter := limiter s; lb := lb1;
        circuitBreak := OnBackendSuccess backend cb1;
        logged := logged s ++
                  [LogError "Error copying response"
                     StatusInternalServerError];
        forwarded := forwarded s ++ [proxyReq] |})
  else
    (w1,
     {| clock := clock s + Z.of_N elapsed;
        metrics := IncResponse (IncRequest (metrics s));
        limiter := limiter s; lb := lb1;
        circuitBreak := OnBackendSuccess backend cb1;
        logged := logged s;
        forwarded := forwarded s ++ [proxyReq] |}).
Proof.
  intros Hb Herr HDo. unfold ServeHTTP, lb_Next.
  cbn [clock lb circuitBreak set_metrics]. rewrite HNext.
  destruct (decide (backend = "")) as [|_]; [done|].
  unfold http_NewRequest. rewrite Herr.
  unfold do_request. fold proxyReq. rewrite HDo.
  rewrite io_Copy_wrapped.
  destruct (io_Copy w (resp_Body resp)) as [w1 failed].
  cbn [fst snd]. destruct failed; [|done].
  unfold HandleError. by rewrite http_Error_wrapped.
Qed.

End DispatcherFacts.

(** A copy to a connection that refuses writes delivers nothing. *)
Lemma io_Copy_chunks_broken (l : list string) (err : bool) (c : response) :
  broken c = true -> body (io_Copy_chunks l err c).1 = body c.
Proof.
  intros Hc. induction l as [|x l IH]; [done|].
  cbn [io_Copy_chunks]. destruct (String.length x =? 0)%nat; [exact IH|].
  cbn [Write response_ResponseWriter]. unfold response_Write.
  assert (Hb : broken (response_WriteHeader 200 c) = true)
    by (unfold response_WriteHeader; by destruct (sent c)).
  rewrite Hb. cbn [fst]. unfold response_WriteHeader. by destruct (sent c).
Qed.

(** C1, as the code has it.  For every request that is forwarded and whose
    backend call completes (the load balancer yields a backend, the request
    is built, the backend answers), on whatever writer: the proxy handler
    reports a success for that backend to the circuit breaker, then copies
    the backend's body to the caller's writer, and nothing else of the
    backend's answer: its status code and its headers are not passed on.
    When the copy ends without error the caller's writer has received the
    body writes only, one response is counted and nothing is logged; when
    the copy fails, an error is counted instead, and the error response is
    written after what was copied.  On the server's writer the copy does
    this: on a connection that takes writes, the bytes read from the body
    are appended unmodified, the header map is left as it was, the status
    is the 200 the first write sends unless a status went out before, and
    the copy fails exactly when the stream ends in a read error; on a
    connection that refuses writes no byte is delivered. *)
Theorem ServeHTTP_backend_answered
  {W : Type} `{HW : http_ResponseWriter W}
  (env : Env) (w : W) (r : Request) (s : World)
  (backend : string) (lb1 : LoadBalancer) (cb1 : CircuitBreaker)
  (resp : BackendResponse) (elapsed : N) :
  Next (clock s) (lb s) (circuitBreak s) = (backend, lb1, cb1) ->
  backend <> "" ->
  NewRequest_err env (Method r) (targetURL backend r) = false ->
  client_Do env {| out_Method := Method r; out_URL := targetURL backend r;
                   out_Header := []; out_Body := Body r |}
    = (Some resp, elapsed) ->
  let copy := io_Copy w (resp_Body resp) in
  let out := ServeHTTP W _ env w r s in
  circuitBreak out.2 = OnBackendSuccess backend cb1 /\
  (copy.2 = false ->
   out.1 = copy.1 /\
   metrics out.2 = IncResponse (IncRequest (metrics s)) /\
   logged out.2 = logged s) /\
  (copy.2 = true ->
   out.1 = http_Error copy.1 "Error copying response"
             StatusInternalServerError /\
   metrics out.2 = IncError (IncRequest (metrics s)) /\
   logged out.2 =
     logged s ++
     [LogError "Error copying response" StatusInternalServerError]) /\
  (forall c : response,
     broken c = false ->
     io_Copy c (resp_Body resp) =
     ({| hdr := hdr c;
         sent := if decide (bytes (resp_Body resp) = "") then sent c
                 else Some (default (200, hdr c) (sent c));
         body := body c +:+ bytes (resp_Body resp);
         broken := false |},
      readErr (resp_Body resp))) /\
  (forall c : response,
     broken c = true ->
     body (io_Copy c (resp_Body resp)).1 = body c).
Proof.
  intros HNext Hb Herr HDo. cbv zeta.
  rewrite (ServeHTTP_answered env w r s backend lb1 cb1 HNext resp elapsed)
    by done.
  destruct (io_Copy w (resp_Body resp)) as [w1 failed]. cbn [fst snd].
  split; [by destruct failed|].
  split; [by intros ->|].
  split; [by intros ->|].
  split.
  - intros c Hc. unfold io_Copy. by rewrite io_Copy_chunks_response.
  - intros c Hc. by apply io_Copy_chunks_broken.
Qed.

Lemma ServeHTTP_backend_answered_witness :
  (let out := ServeHTTP response _ env_not_found fresh_response
                sample_request one_backend_server in
   out.1 = {| hdr := ∅; sent := Some (200, ∅); body := "not found";
              broken := false |} /\
   metrics out.2 =
     {| RequestCount := 1; ResponseCount := 1; ErrorCount := 0 |} /\
   backends (circuitBreak out.2) !! "http://localhost:8080" =
     Some closedState) /\
  (let out := ServeHTTP response _ env_truncated fresh_response
                sample_request one_backend_server in
   body out.1 = "parError copying response" +:+ LF /\
   fst <$> sent out.1 = Some 200 /\
   metrics out.2 =
     {| RequestCount := 1; ResponseCount := 0; ErrorCount := 1 |} /\
   backends (circuitBreak out.2) !! "http://localhost:8080" =
     Some closedState).
Proof.
  split; cbv zeta.
  - destruct (ServeHTTP_backend_answered env_not_found fresh_response
                sample_request one_backend_server "http://localhost:8080"
                {| pool := ["http://localhost:8080"]; current := 1 |}
                (IsBackendOpen "http://localhost:8080" 0 NewCircuitBreaker).2
                not_found 3%N)
      as (Hcb & Hdone & _ & _ & _);
      [vm_compute; reflexivity|discriminate|reflexivity|reflexivity|].
    destruct Hdone as (Hw & Hm & _); [reflexivity|].
    rewrite Hw, Hm, Hcb. repeat split; vm_compute; reflexivity.
  - destruct (ServeHTTP_backend_answered env_truncated fresh_response
                sample_request one_backend_server "http://localhost:8080"
                {| pool := ["http://localhost:8080"]; current := 1 |}
                (IsBackendOpen "http://localhost:8080" 0 NewCircuitBreaker).2
                {| resp_StatusCode := 200; resp_Header := [];
                   resp_Body := {| chunks := ["par"]; readErr := true |} |}
                3%N)
      as (Hcb & _ & Hfailed & _ & _);
      [vm_compute; reflexivity|discriminate|reflexivity|reflexivity|].
    destruct Hfailed as (Hw & Hm & _); [reflexivity|].
    rewrite Hw, Hm, Hcb. repeat split; vm_compute; reflexivity.
Defined.

(** C1, as stated, fails: a backend answers 404 with a content type, and
    the caller receives status 200 without that header. *)
Lemma ServeHTTP_not_verbatim :
  ~ verbatim not_found
      (ServeHTTP response _ env_not_found fresh_response sample_request
         one_backend_server).1.
Proof. intros [Hsent _]. vm_compute in Hsent. discriminate. Qed.

(** C10.  When the load balancer yields a backend and the request is
    built, the one request the proxy handler hands to the backend has the
    inbound method, the backend's base URL followed by the inbound path
    and, when the query string is not empty, a question mark and the query
    string, the inbound body stream, and an empty header: whatever headers
    the inbound request carries, none is copied. *)
Theorem ServeHTTP_outbound_request
  {W : Type} `{HW : http_ResponseWriter W}
  (env : Env) (w : W) (r : Request) (s : World)
  (backend : string) (lb1 : LoadBalancer) (cb1 : CircuitBreaker) :
  Next (clock s) (lb s) (circuitBreak s) = (backend, lb1, cb1) ->
  backend <> "" ->
  NewRequest_err env (Method r) (targetURL backend r) = false ->
  forwarded (ServeHTTP W _ env w r s).2 =
  forwarded s ++
  [{| out_Method := Method r;
      out_URL := if decide (URL_RawQuery r = "")
                 then backend +:+ URL_Path r
                 else (backend +:+ URL_Path r) +:+ "?" +:+ URL_RawQuery r;
      out_Header := [];
      out_Body := Body r |}].
Proof.
  intros HNext Hb Herr.
  destruct (client_Do env
              {| out_Method := Method r; out_URL := targetURL backend r;
                 out_Header := []; out_Body := Body r |})
    as [[resp|] elapsed] eqn:HDo.
  - rewrite (ServeHTTP_answered env w r s backend lb1 cb1 HNext resp elapsed)
      by done.
    destruct (io_Copy w (resp_Body resp)) as [w1 failed].
    by destruct failed.
  - by rewrite (ServeHTTP_unreachable env w r s backend lb1 cb1 HNext elapsed).
Qed.

Lemma ServeHTTP_outbound_request_witness :
  forwarded (ServeHTTP response _ env_unreachable fresh_response
               sample_request one_backend_server).2 =
  [{| out_Method := "GET";
      out_URL := "http://localhost:8080/items?id=7";
      out_Header := [];
      out_Body := {| chunks := []; readErr := false |} |}].
Proof.
  apply (ServeHTTP_outbound_request env_unreachable fresh_response
           sample_request one_backend_server "http://localhost:8080"
           {| pool := ["http://localhost:8080"]; current := 1 |}
           (IsBackendOpen "http://localhost:8080" 0 NewCircuitBreaker).2).
  - vm_compute. reflexivity.
  - discriminate.
  - reflexivity.
Defined.

(** ** The middleware stages *)

Section StageFacts.

Context {W : Type} `{HW : http_ResponseWriter W}.
Variables (next : Handler) (env : Env) (w : W) (r : Request) (s : World).

(** A request the rate limiter denies: the next handler is not called. *)
Lemma RateLimiter_Middleware_denied rl :
  Allow (clock s) (limiter s) = (false, rl) ->
  RateLimiter_Middleware next W _ env w r s =
  (http_Error w "Rate limit exceeded" StatusTooManyRequests,
   log_Printf (LogError "Rate limit exceeded" StatusTooManyRequests)
     (set_limiter rl s)).
Proof. intros H. unfold RateLimiter_Middleware. by rewrite H. Qed.

(** A request the rate limiter admits goes to the next handler. *)
Lemma RateLimiter_Middleware_admitted rl :
  Allow (clock s) (limiter s) = (true, rl) ->
  RateLimiter_Middleware next W _ env w r s =
  next W _ env w r (set_limiter rl s).
Proof. intros H. unfold RateLimiter_Middleware. by rewrite H. Qed.

(** A request met by an open circuit: the next handler is not called. *)
Lemma CircuitBreaker_Middleware_open cb :
  IsBackendOpen (URL_Host r) (clock s) (circuitBreak s) = (true, cb) ->
  CircuitBreaker_Middleware next W _ env w r s =
  (http_Error w "Circuit breaker is open" StatusServiceUnavailable,
   log_Printf (LogError "Circuit breaker is open" StatusServiceUnavailable)
     (set_circuitBreak cb s)).
Proof. intros H. unfold CircuitBreaker_Middleware. by rewrite H. Qed.

End StageFacts.

(** What the circuit breaker stage does with a request it lets through:
    the key it uses is the host of the request URL, [r.URL.Host] in the
    source.  The request reaches the inner handler on a capturing writer;
    once the inner handler is done, the stage reports a failure under that
    key when the status the writer recorded is 500 or more, and a success
    under that key otherwise, and does nothing else. *)
Theorem CircuitBreaker_Middleware_reports
  {W : Type} `{HW : http_ResponseWriter W}
  (next : Handler) (env : Env) (w : W) (r : Request) (s : World)
  (cb1 : CircuitBreaker) (wrapped : ResponseWriter W) (s2 : World) :
  IsBackendOpen (URL_Host r) (clock s) (circuitBreak s) = (false, cb1) ->
  next (ResponseWriter W) _ env (wrap w) r (set_circuitBreak cb1 s)
    = (wrapped, s2) ->
  (500 <= StatusCode wrapped ->
   CircuitBreaker_Middleware next W _ env w r s =
   (inner wrapped,
    set_circuitBreak
      (OnBackendFailure (URL_Host r) (clock s2) (circuitBreak s2)) s2)) /\
  (StatusCode wrapped < 500 ->
   CircuitBreaker_Middleware next W _ env w r s =
   (inner wrapped,
    set_circuitBreak (OnBackendSuccess (URL_Host r) (circuitBreak s2)) s2)).
Proof.
  intros Hopen Hnext. unfold CircuitBreaker_Middleware.
  rewrite Hopen. cbv iota beta. rewrite Hnext.
  split; intros Hst.
  - by rewrite (proj2 (Z.leb_le _ _) Hst).
  - by rewrite (proj2 (Z.leb_gt _ _) Hst).
Qed.

Lemma CircuitBreaker_Middleware_reports_witness :
  (let out := CircuitBreaker_Middleware ServeHTTP response _ env_unreachable
                fresh_response sample_request one_backend_server in
   fst <$> sent out.1 = Some StatusBadGateway /\
   backends (circuitBreak out.2) !! "" =
     Some {| state := StateClosed; failureCount := 1;
             lastFailureTime := 3 |}) /\
  (let out := CircuitBreaker_Middleware ServeHTTP response _ env_not_found
                fresh_response sample_request one_backend_server in
   fst <$> sent out.1 = Some 200 /\
   backends (circuitBreak out.2) !! "" = Some closedState).
Proof.
  split; cbv zeta.
  - rewrite (proj1 (CircuitBreaker_Middleware_reports ServeHTTP
                      env_unreachable fresh_response sample_request
                      one_backend_server
                      (IsBackendOpen "" 0 NewCircuitBreaker).2
                      (ServeHTTP _ _ env_unreachable (wrap fresh_response)
                         sample_request
                         (set_circuitBreak
                            (IsBackendOpen "" 0 NewCircuitBreaker).2
                            one_backend_server)).1
                      (ServeHTTP _ _ env_unreachable (wrap fresh_response)
                         sample_request
                         (set_circuitBreak
                            (IsBackendOpen "" 0 NewCircuitBreaker).2
                            one_backend_server)).2
                      eq_refl (surjective_pairing _)));
      [|vm_compute; discriminate].
    split; vm_compute; reflexivity.
  - rewrite (proj2 (CircuitBreaker_Middleware_reports ServeHTTP
                      env_not_found fresh_response sample_request
                      one_backend_server
                      (IsBackendOpen "" 0 NewCircuitBreaker).2
                      (ServeHTTP _ _ env_not_found (wrap fresh_response)
                         sample_request
                         (set_circuitBreak
                            (IsBackendOpen "" 0 NewCircuitBreaker).2
                            one_backend_server)).1
                      (ServeHTTP _ _ env_not_found (wrap fresh_response)
                         sample_request
                         (set_circuitBreak
                            (IsBackendOpen "" 0 NewCircuitBreaker).2
                            one_backend_server)).2
                      eq_refl (surjective_pairing _)));
      [|vm_compute; reflexivity].
    split; vm_compute; reflexivity.
Defined.

(** C7.  The claim fails on the code.  A request for [/items?id=7] whose
    URL carries no host, as the request of any ordinary client, goes
    through the circuit breaker stage to the proxy handler, which forwards
    it to the backend [http://localhost:8080]; the backend cannot be
    reached and the writer records status 502.  The stage then reports the
    failure under the host of the request URL, the empty string, and not
    under the backend the request was sent to: the record of that backend
    holds the one failure the proxy handler reported itself, and the
    failure of the stage sits in a record for the empty string. *)
Lemma CircuitBreaker_Middleware_wrong_key :
  let checked :=
    set_circuitBreak (IsBackendOpen "" 0 NewCircuitBreaker).2
      one_backend_server in
  let handled :=
    ServeHTTP (ResponseWriter response) _ env_unreachable
      (wrap fresh_response) sample_request checked in
  let out :=
    CircuitBreaker_Middleware ServeHTTP response _ env_unreachable
      fresh_response sample_request one_backend_server in
  out_URL <$> forwarded out.2 = ["http://localhost:8080/items?id=7"] /\
  StatusCode handled.1 = StatusBadGateway /\
  circuitBreak out.2 = OnBackendFailure "" 3 (circuitBreak handled.2) /\
  circuitBreak out.2 <>
    OnBackendFailure "http://localhost:8080" 3 (circuitBreak handled.2) /\
  backends (circuitBreak out.2) !! "http://localhost:8080" =
    Some {| state := StateClosed; failureCount := 1;
            lastFailureTime := 3 |} /\
  backends (circuitBreak out.2) !! "" =
    Some {| state := StateClosed; failureCount := 1;
            lastFailureTime := 3 |}.
Proof.
  cbv zeta. split; [reflexivity|]. split; [reflexivity|].
  split; [vm_compute; reflexivity|]. split.
  - intros H. apply (f_equal (fun cb => backends cb !! "")) in H.
    vm_compute in H. discriminate.
  - split; vm_compute; reflexivity.
Qed.

(** C8, as the code has it.  Every failing path writes one error response
    and logs one error line before it returns.  The three failing paths
    of the proxy handler (no backend, backend unreachable, copy failed) add
    one to the error counter; the rate limiter stage and the circuit
    breaker stage reject without calling the next handler and leave the
    error counter as it was. *)
Theorem error_paths
  {W : Type} `{HW : http_ResponseWriter W}
  (next : Handler) (env : Env) (w : W) (r : Request) (s : World) :
  (forall rl,
     Allow (clock s) (limiter s) = (false, rl) ->
     let out := RateLimiter_Middleware next W _ env w r s in
     error_response w out.1 s out.2
       "Rate limit exceeded" StatusTooManyRequests false) /\
  (forall cb,
     IsBackendOpen (URL_Host r) (clock s) (circuitBreak s) = (true, cb) ->
     let out := CircuitBreaker_Middleware next W _ env w r s in
     error_response w out.1 s out.2
       "Circuit breaker is open" StatusServiceUnavailable false) /\
  (forall lb1 cb1,
     Next (clock s) (lb s) (circuitBreak s) = ("", lb1, cb1) ->
     let out := ServeHTTP W _ env w r s in
     error_response w out.1 s out.2
       "No backends available" StatusServiceUnavailable true) /\
  (forall backend lb1 cb1 elapsed,
     Next (clock s) (lb s) (circuitBreak s) = (backend, lb1, cb1) ->
     backend <> "" ->
     NewRequest_err env (Method r) (targetURL backend r) = false ->
     client_Do env {| out_Method := Method r;
                      out_URL := targetURL backend r;
                      out_Header := []; out_Body := Body r |}
       = (None, elapsed) ->
     let out := ServeHTTP W _ env w r s in
     error_response w out.1 s out.2
       "Error forwarding request" StatusBadGateway true) /\
  (forall backend lb1 cb1 resp elapsed w1,
     Next (clock s) (lb s) (circuitBreak s) = (backend, lb1, cb1) ->
     backend <> "" ->
     NewRequest_err env (Method r) (targetURL backend r) = false ->
     client_Do env {| out_Method := Method r;
                      out_URL := targetURL backend r;
                      out_Header := []; out_Body := Body r |}
       = (Some resp, elapsed) ->
     io_Copy w (resp_Body resp) = (w1, true) ->
     let out := ServeHTTP W _ env w r s in
     error_response w1 out.1 s out.2
       "Error copying response" StatusInternalServerError true).
Proof.
  split; [|split; [|split; [|split]]].
  - intros rl Hdenied. cbv zeta.
    by rewrite (RateLimiter_Middleware_denied next env w r s rl Hdenied).
  - intros cb Hopen. cbv zeta.
    by rewrite (CircuitBreaker_Middleware_open next env w r s cb Hopen).
  - intros lb1 cb1 HNext. cbv zeta.
    by rewrite (ServeHTTP_no_backend env w r s "" lb1 cb1 HNext).
  - intros backend lb1 cb1 elapsed HNext Hb Herr HDo. cbv zeta.
    by rewrite (ServeHTTP_unreachable env w r s backend lb1 cb1 HNext
                  elapsed Hb Herr HDo).
  - intros backend lb1 cb1 resp elapsed w1 HNext Hb Herr HDo Hcopy. cbv zeta.
    rewrite (ServeHTTP_answered env w r s backend lb1 cb1 HNext resp
               elapsed Hb Herr HDo).
    by rewrite Hcopy.
Qed.

Lemma error_paths_witness :
  (let out := RateLimiter_Middleware ServeHTTP response _ env_not_found
                fresh_response sample_request zero_limit_server in
   error_response fresh_response out.1 zero_limit_server out.2
     "Rate limit exceeded" StatusTooManyRequests false) /\
  (let out := CircuitBreaker_Middleware ServeHTTP response _ env_not_found
                fresh_response sample_request tripped_server in
   error_response fresh_response out.1 tripped_server out.2
     "Circuit breaker is open" StatusServiceUnavailable false) /\
  (let out := ServeHTTP response _ env_not_found fresh_response
                sample_request no_backend_server in
   error_response fresh_response out.1 no_backend_server out.2
     "No backends available" StatusServiceUnavailable true) /\
  (let out := ServeHTTP response _ env_unreachable fresh_response
                sample_request one_backend_server in
   error_response fresh_response out.1 one_backend_server out.2
     "Error forwarding request" StatusBadGateway true) /\
  (let out := ServeHTTP response _ env_truncated fresh_response
                sample_request one_backend_server in
   error_response
     (io_Copy fresh_response {| chunks := ["par"]; readErr := true |}).1
     out.1 one_backend_server out.2
     "Error copying response" StatusInternalServerError true).
Proof.
  split; [|split; [|split; [|split]]].
  - apply (proj1 (error_paths ServeHTTP env_not_found fresh_response
                    sample_request zero_limit_server)
             {| timestamps := []; rps := 0 |}).
    reflexivity.
  - apply (proj1 (proj2 (error_paths ServeHTTP env_not_found fresh_response
                           sample_request tripped_server))
             (circuitBreak tripped_server)).
    vm_compute. reflexivity.
  - apply (proj1 (proj2 (proj2 (error_paths ServeHTTP env_not_found
                                  fresh_response sample_request
                                  no_backend_server)))
             (New []) NewCircuitBreaker).
    reflexivity.
  - apply (proj1 (proj2 (proj2 (proj2 (error_paths ServeHTTP env_unreachable
                                         fresh_response sample_request
                                         one_backend_server))))
             "http://localhost:8080"
             {| pool := ["http://localhost:8080"]; current := 1 |}
             (IsBackendOpen "http://localhost:8080" 0 NewCircuitBreaker).2
             3%N).
    + vm_compute. reflexivity.
    + discriminate.
    + reflexivity.
    + reflexivity.
  - apply (proj2 (proj2 (proj2 (proj2 (error_paths ServeHTTP env_truncated
                                         fresh_response sample_request
                                         one_backend_server))))
             "http://localhost:8080"
             {| pool := ["http://localhost:8080"]; current := 1 |}
             (IsBackendOpen "http://localhost:8080" 0 NewCircuitBreaker).2
             {| resp_StatusCode := 200; resp_Header := [];
                resp_Body := {| chunks := ["par"]; readErr := true |} |}
             3%N).
    + vm_compute. reflexivity.
    + discriminate.
    + reflexivity.
    + reflexivity.
    + vm_compute. reflexivity.
Defined.

(** C8, as stated, fails: a request the rate limiter rejects is answered
    429 and the error counter stays where it was. *)
Lemma CapacityExceeded_not_counted :
  let out := createHandler response _ env_not_found fresh_response
               sample_request zero_limit_server in
  fst <$> sent out.1 = Some StatusTooManyRequests /\
  ErrorCount (metrics out.2) = ErrorCount (metrics zero_limit_server) /\
  ErrorCount (metrics out.2) <>
    uint64_add (ErrorCount (metrics zero_limit_server)) 1.
Proof. cbv zeta. repeat split; vm_compute; discriminate || reflexivity. Qed.

(** ** The chain *)

(** [Chain] applies the middleware from the last to the first: the first
    of the list ends up outermost. *)
Lemma Chain_loop_foldr (middleware : list Middleware) (k : nat) (h : Handler) :
  (k <= length middleware)%nat ->
  Chain_loop middleware k h =
  foldr (fun (m : Middleware) acc => m acc) h (take k middleware).
Proof.
  revert h. induction k as [|i IH]; intros h Hk; [done|].
  cbn [Chain_loop].
  destruct (lookup_lt_is_Some_2 middleware i) as [m Hm]; [lia|].
  rewrite Hm, IH by lia.
  by rewrite (take_S_r _ _ m), foldr_app.
Qed.

Lemma Chain_foldr (h : Handler) (middleware : list Middleware) :
  Chain h middleware = foldr (fun (m : Middleware) acc => m acc) h middleware.
Proof.
  unfold Chain. rewrite Chain_loop_foldr by done. by rewrite take_ge.
Qed.

(** C2, as the code has it.  [Chain] makes the first middleware it is
    given the outermost, and [createHandler] gives it the rate limiter,
    the circuit breaker and the logger in that order: on the proxy route
    the rate limiting stage runs outermost, the circuit breaker stage next,
    and the logging stage innermost, immediately around the proxy
    handler. *)
Theorem createHandler_order :
  createHandler =
    RateLimiter_Middleware (CircuitBreaker_Middleware (Logging ServeHTTP)) /\
  (forall (h : Handler) (middleware : list Middleware),
     Chain h middleware =
     foldr (fun (m : Middleware) acc => m acc) h middleware).
Proof. split; [reflexivity|exact Chain_foldr]. Qed.

(** C2, as stated, fails: under the order it describes a request the rate
    limiter rejects would still be logged by the logging stage; the
    handler of the proxy route logs the rejection only. *)
Lemma createHandler_not_spec_order :
  logged (createHandler response _ env_not_found fresh_response
            sample_request zero_limit_server).2 =
    [LogError "Rate limit exceeded" StatusTooManyRequests] /\
  createHandler response _ env_not_found fresh_response sample_request
    zero_limit_server <>
  spec_createHandler response _ env_not_found fresh_response sample_request
    zero_limit_server.
Proof.
  split; [reflexivity|].
  intros H. apply (f_equal (fun out => logged out.2)) in H.
  vm_compute in H. discriminate.
Qed.

(** ** The server *)

(** The sample server is the one [NewServer] builds. *)
Example NewServer_one_backend :
  NewServer 100 ["http://localhost:8080"] 0 = Some one_backend_server.
Proof. reflexivity. Qed.

(** A negative limit makes the construction panic. *)
Example NewServer_negative_limit :
  NewServer (-1) ["http://localhost:8080"] 0 = None.
Proof. reflexivity. Qed.

(** * Further properties of the components *)

(** ** Circuit breaker: records *)

Lemma int_add_small x y :
  - 2 ^ 63 <= x + y < 2 ^ 63 -> int_add x y = x + y.
Proof.
  intros H. unfold int_add.
  rewrite Z.mod_small by lia. lia.
Qed.

(** Operations on one backend do not touch the records of the others. *)
Lemma CircuitBreaker_lookup_ne (b b' : string) (now : Time)
  (cb : CircuitBreaker) :
  b <> b' ->
  backends (OnBackendFailure b now cb) !! b' = backends cb !! b' /\
  backends (OnBackendSuccess b cb) !! b' = backends cb !! b' /\
  backends (IsBackendOpen b now cb).2 !! b' = backends cb !! b'.
Proof.
  intros Hne. unfold OnBackendFailure, OnBackendSuccess, IsBackendOpen.
  destruct (backends cb !! b) as [st|]; cbn.
  - destruct (state st); cbn;
      try destruct (timeout cb <? Since now (lastFailureTime st)); cbn;
      rewrite ?lookup_insert_ne by done; done.
  - rewrite !lookup_insert_ne by done. done.
Qed.

Lemma CircuitBreaker_settings (b : string) (now : Time) (cb : CircuitBreaker) :
  (failureThreshold (OnBackendFailure b now cb) = failureThreshold cb /\
   failureThreshold (OnBackendSuccess b cb) = failureThreshold cb /\
   failureThreshold (IsBackendOpen b now cb).2 = failureThreshold cb) /\
  (timeout (OnBackendFailure b now cb) = timeout cb /\
   timeout (OnBackendSuccess b cb) = timeout cb /\
   timeout (IsBackendOpen b now cb).2 = timeout cb).
Proof.
  unfold OnBackendFailure, OnBackendSuccess, IsBackendOpen.
  destruct (backends cb !! b) as [st|]; cbn; [|done].
  destruct (state st); cbn;
    try destruct (timeout cb <? Since now (lastFailureTime st)); done.
Qed.

(** X1.  A report or a check for one backend leaves the record of every
    other backend, the failure threshold and the timeout as they were. *)
Theorem CircuitBreaker_other_backends
  (b b' : string) (now : Time) (cb : CircuitBreaker) :
  b <> b' ->
  (backends (OnBackendFailure b now cb) !! b' = backends cb !! b' /\
   backends (OnBackendSuccess b cb) !! b' = backends cb !! b' /\
   backends (IsBackendOpen b now cb).2 !! b' = backends cb !! b') /\
  (failureThreshold (OnBackendFailure b now cb) = failureThreshold cb /\
   failureThreshold (OnBackendSuccess b cb) = failureThreshold cb /\
   failureThreshold (IsBackendOpen b now cb).2 = failureThreshold cb) /\
  (timeout (OnBackendFailure b now cb) = timeout cb /\
   timeout (OnBackendSuccess b cb) = timeout cb /\
   timeout (IsBackendOpen b now cb).2 = timeout cb).
Proof.
  intros Hne. split.
  - by apply CircuitBreaker_lookup_ne.
  - apply CircuitBreaker_settings.
Qed.

Lemma CircuitBreaker_other_backends_witness :
  (backends (OnBackendFailure "a" 9 opened_at_5) !! "b"
     = backends opened_at_5 !! "b" /\
   backends (OnBackendSuccess "a" opened_at_5) !! "b"
     = backends opened_at_5 !! "b" /\
   backends (IsBackendOpen "a" 9 opened_at_5).2 !! "b"
     = backends opened_at_5 !! "b") /\
  (failureThreshold (OnBackendFailure "a" 9 opened_at_5)
     = failureThreshold opened_at_5 /\
   failureThreshold (OnBackendSuccess "a" opened_at_5)
     = failureThreshold opened_at_5 /\
   failureThreshold (IsBackendOpen "a" 9 opened_at_5).2
     = failureThreshold opened_at_5) /\
  (timeout (OnBackendFailure "a" 9 opened_at_5) = timeout opened_at_5 /\
   timeout (OnBackendSuccess "a" opened_at_5) = timeout opened_at_5 /\
   timeout (IsBackendOpen "a" 9 opened_at_5).2 = timeout opened_at_5).
Proof.
  apply (CircuitBreaker_other_backends "a" "b" 9 opened_at_5). discriminate.
Defined.

(** X2.  No operation deletes a record: a backend that has one keeps one
    through any report or check, for whichever backend.  A failure report
    and an availability check leave a record for their own backend, which
    they create when there was none; the check creates it closed, with no
    failure counted. *)
Theorem CircuitBreaker_records_kept
  (b b' : string) (now : Time) (cb : CircuitBreaker) :
  (is_Some (backends cb !! b') ->
   is_Some (backends (OnBackendFailure b now cb) !! b') /\
   is_Some (backends (OnBackendSuccess b cb) !! b') /\
   is_Some (backends (IsBackendOpen b now cb).2 !! b')) /\
  is_Some (backends (OnBackendFailure b now cb) !! b) /\
  is_Some (backends (IsBackendOpen b now cb).2 !! b) /\
  (backends cb !! b = None ->
   IsBackendOpen b now cb =
   (false, set_backends (<[b := closedState]> (backends cb)) cb)).
Proof.
  split; [|split; [|split]].
  - intros Hsome.
    destruct (decide (b = b')) as [<-|Hne].
    + destruct Hsome as [st Hst].
      unfold OnBackendFailure, OnBackendSuccess, IsBackendOpen.
      rewrite Hst. cbn. rewrite !lookup_insert_eq.
      split; [done|]. split; [done|].
      destruct (state st); cbn; [by rewrite Hst| |by rewrite Hst].
      destruct (timeout cb <? Since now (lastFailureTime st)); cbn.
      * by rewrite lookup_insert_eq.
      * by rewrite Hst.
    + destruct (CircuitBreaker_lookup_ne b b' now cb Hne)
        as (-> & -> & ->).
      done.
  - rewrite OnBackendFailure_lookup. done.
  - unfold IsBackendOpen.
    destruct (backends cb !! b) as [st|] eqn:Hst; cbn.
    + destruct (state st); cbn; [by rewrite Hst| |by rewrite Hst].
      destruct (timeout cb <? Since now (lastFailureTime st)); cbn.
      * by rewrite lookup_insert_eq.
      * by rewrite Hst.
    + by rewrite lookup_insert_eq.
  - intros Hnone. unfold IsBackendOpen. by rewrite Hnone.
Qed.


Lemma CircuitBreaker_records_kept_witness :
  (is_Some (backends (OnBackendFailure "b" 9 opened_at_5) !! "a") /\
   is_Some (backends (OnBackendSuccess "b" opened_at_5) !! "a") /\
   is_Some (backends (IsBackendOpen "b" 9 opened_at_5).2 !! "a")) /\
  IsBackendOpen "b" 9 opened_at_5 =
  (false,
   set_backends (<["b" := closedState]> (backends opened_at_5)) opened_at_5).
Proof.
  split.
  - apply (proj1 (CircuitBreaker_records_kept "b" "a" 9 opened_at_5)).
    vm_compute. eauto.
  - apply (proj2 (proj2 (proj2
             (CircuitBreaker_records_kept "b" "a" 9 opened_at_5)))).
    vm_compute. reflexivity.
Defined.

(** ** Circuit breaker: runs of failures *)

(** Failures in a row on a backend whose record, a closed one without
    failures if it has none, counts [c] failures: the count goes up by one
    each time, and the state is open as soon as the count has reached the
    threshold. *)
Lemma OnBackendFailure_run_lookup (b : string) (instants : list Time)
  (cb : CircuitBreaker) (t : Time) :
  let st := default closedState (backends cb !! b) in
  last instants = Some t ->
  0 <= failureCount st ->
  failureCount st + Z.of_nat (length instants) < 2 ^ 63 ->
  backends (OnBackendFailure_run b instants cb) !! b =
  Some {| state := if failureThreshold cb
                      <=? failureCount st + Z.of_nat (length instants)
                   then StateOpen else state st;
          failureCount := failureCount st + Z.of_nat (length instants);
          lastFailureTime := t |}.
Proof.
  revert cb.
  induction instants as [|now rest IH]; intros cb st Hlast H0 Hmax; [done|].
  cbn [OnBackendFailure_run].
  pose proof (OnBackendFailure_lookup b now cb) as Hlook.
  cbv zeta in Hlook. fold st in Hlook.
  cbn [length] in Hmax.
  rewrite (int_add_small (failureCount st) 1) in Hlook by lia.
  destruct rest as [|now' rest'].
  - injection Hlast as <-. cbn [OnBackendFailure_run length].
    rewrite Hlook. do 2 f_equal.
  - specialize (IH (OnBackendFailure b now cb)). cbv zeta in IH.
    rewrite Hlook in IH. cbn [default from_option id] in IH.
    cbn [failureCount state] in IH.
    rewrite IH; [|done|lia|cbn [length] in *; lia].
    replace (failureCount st + 1 + Z.of_nat (length (now' :: rest')))
      with (failureCount st + Z.of_nat (length (now :: now' :: rest')))
      by (cbn [length]; lia).
    change (failureThreshold (OnBackendFailure b now cb))
      with (failureThreshold cb).
    f_equal. f_equal.
    destruct (Z.leb_spec (failureThreshold cb) (failureCount st + 1));
      [|done].
    rewrite (proj2 (Z.leb_le _ _)); [done|]. cbn [length]. lia.
Qed.

(** X3.  Failures reported in a row for a backend that is closed with no
    failure counted, or that has no record yet: after [n >= 1] of them the
    record counts [n] failures, holds the instant of the last one, and is
    open exactly when [n] has reached the failure threshold; before that it
    is still closed.  Under the default settings the circuit opens at the
    fifth failure and not earlier. *)
Theorem OnBackendFailure_run_opens
  (b : string) (instants : list Time) (cb : CircuitBreaker) (t : Time) :
  state (default closedState (backends cb !! b)) = StateClosed ->
  failureCount (default closedState (backends cb !! b)) = 0 ->
  last instants = Some t ->
  Z.of_nat (length instants) < 2 ^ 63 ->
  backends (OnBackendFailure_run b instants cb) !! b =
  Some {| state := if failureThreshold cb <=? Z.of_nat (length instants)
                   then StateOpen else StateClosed;
          failureCount := Z.of_nat (length instants);
          lastFailureTime := t |}.
Proof.
  intros Hclosed Hzero Hlast Hmax.
  pose proof (OnBackendFailure_run_lookup b instants cb t) as H.
  cbv zeta in H. rewrite Hclosed, Hzero in H.
  rewrite H by (done || lia). done.
Qed.

Lemma OnBackendFailure_run_opens_witness :
  backends (OnBackendFailure_run "a" [1; 2; 3; 4] NewCircuitBreaker) !! "a" =
    Some {| state := StateClosed; failureCount := 4; lastFailureTime := 4 |} /\
  backends (OnBackendFailure_run "a" [1; 2; 3; 4; 5] NewCircuitBreaker) !! "a" =
    Some {| state := StateOpen; failureCount := 5; lastFailureTime := 5 |}.
Proof.
  split.
  - apply (OnBackendFailure_run_opens "a" [1; 2; 3; 4] NewCircuitBreaker 4);
      [reflexivity|reflexivity|reflexivity|vm_compute; reflexivity].
  - apply (OnBackendFailure_run_opens "a" [1; 2; 3; 4; 5] NewCircuitBreaker 5);
      [reflexivity|reflexivity|reflexivity|vm_compute; reflexivity].
Defined.

(** ** Circuit breaker: recovery *)



(** X5.  A success reported while a backend is open clears its failure
    count and leaves it open.  When the timeout has passed and a check has
    made it half-open, one more failure then counts as the first: under a
    threshold above one the backend stays half-open, and every check still
    finds it available. *)
Theorem CircuitBreaker_success_while_open
  (b : string) (cb : CircuitBreaker) (st : backendState) (t t2 : Time) :
  backends cb !! b = Some st ->
  state st = StateOpen ->
  timeout cb < Since t (lastFailureTime st) ->
  1 < failureThreshold cb ->
  let cb1 := OnBackendSuccess b cb in
  let cb2 := (IsBackendOpen b t cb1).2 in
  let cb3 := OnBackendFailure b t2 cb2 in
  backends cb1 !! b =
    Some {| state := StateOpen; failureCount := 0;
            lastFailureTime := lastFailureTime st |} /\
  backends cb3 !! b =
    Some {| state := StateHalfOpen; failureCount := 1;
            lastFailureTime := t2 |} /\
  forall t', IsBackendOpen b t' cb3 = (false, cb3).
Proof.
  intros Hst Hopen Hlate Hth cb1 cb2 cb3.
  assert (H1 : backends cb1 !! b =
               Some {| state := StateOpen; failureCount := 0;
                       lastFailureTime := lastFailureTime st |}).
  { unfold cb1, OnBackendSuccess. rewrite Hst. cbn.
    by rewrite lookup_insert_eq, Hopen. }
  assert (Ht1 : timeout cb1 = timeout cb)
    by (unfold cb1, OnBackendSuccess; by rewrite Hst).
  assert (Hth1 : failureThreshold cb1 = failureThreshold cb)
    by (unfold cb1, OnBackendSuccess; by rewrite Hst).
  assert (H2 : backends cb2 !! b =
               Some {| state := StateHalfOpen; failureCount := 0;
                       lastFailureTime := lastFailureTime st |}).
  { unfold cb2.
    rewrite (IsBackendOpen_open_late b t cb1 _ H1 eq_refl)
      by (by rewrite Ht1).
    cbn. by rewrite lookup_insert_eq. }
  assert (H3 : backends cb3 !! b =
               Some {| state := StateHalfOpen; failureCount := 1;
                       lastFailureTime := t2 |}).
  { unfold cb3. rewrite OnBackendFailure_lookup, H2. cbn.
    change (int_add 0 1) with 1.
    replace (failureThreshold cb2) with (failureThreshold cb).
    - by rewrite (proj2 (Z.leb_gt _ _) Hth).
    - unfold cb2.
      rewrite (IsBackendOpen_open_late b t cb1 _ H1 eq_refl)
        by (by rewrite Ht1).
      by rewrite <- Hth1. }
  split; [exact H1|]. split; [exact H3|].
  intros t'. by apply (IsBackendOpen_not_open b t' _ _ H3).
Qed.

Lemma CircuitBreaker_success_while_open_witness :
  backends (OnBackendSuccess "a" opened_at_5) !! "a" =
    Some {| state := StateOpen; failureCount := 0; lastFailureTime := 5 |} /\
  backends
    (OnBackendFailure "a" (7 + 10 * Second)
       (IsBackendOpen "a" (6 + 10 * Second)
          (OnBackendSuccess "a" opened_at_5)).2) !! "a" =
    Some {| state := StateHalfOpen; failureCount := 1;
            lastFailureTime := 7 + 10 * Second |} /\
  forall t',
    IsBackendOpen "a" t'
      (OnBackendFailure "a" (7 + 10 * Second)
         (IsBackendOpen "a" (6 + 10 * Second)
            (OnBackendSuccess "a" opened_at_5)).2) =
    (false,
     OnBackendFailure "a" (7 + 10 * Second)
       (IsBackendOpen "a" (6 + 10 * Second)
          (OnBackendSuccess "a" opened_at_5)).2).
Proof.
  apply (CircuitBreaker_success_while_open "a" opened_at_5
           {| state := StateOpen; failureCount := 5; lastFailureTime := 5 |}
           (6 + 10 * Second) (7 + 10 * Second)).
  - vm_compute. reflexivity.
  - reflexivity.
  - vm_compute. reflexivity.
  - vm_compute. reflexivity.
Defined.

(** ** Rate limiter: the window *)

Lemma StronglySorted_filter (P : Z -> Prop) `{!forall x, Decision (P x)}
  (l : list Z) :
  StronglySorted Z.le l -> StronglySorted Z.le (filter P l).
Proof.
  induction 1 as [|x l Hs IH Hall]; [constructor|].
  destruct (decide (P x)).
  - rewrite filter_cons_True by done. constructor; [done|].
    apply Forall_forall. intros y Hy.
    apply list_elem_of_filter in Hy as [_ Hy].
    by eapply Forall_forall in Hall.
  - by rewrite filter_cons_False.
Qed.

Lemma StronglySorted_snoc (l : list Z) (y : Z) :
  StronglySorted Z.le l -> Forall (fun x => x <= y) l ->
  StronglySorted Z.le (l ++ [y]).
Proof.
  induction 1 as [|x l Hs IH Hall]; intros Hle.
  - repeat constructor.
  - apply Forall_cons in Hle as [Hx Hle]. simpl. constructor; [by apply IH|].
    apply Forall_app. split; [done|]. by repeat constructor.
Qed.

(** One call keeps the window. *)
Lemma Allow_keeps_window (N : Z) (last now : Time) (rl : RateLimiter) :
  AdmissionWindow N last rl ->
  last <= now ->
  AdmissionWindow N now (Allow now rl).2.
Proof.
  intros (Hrps & Hlen & Hwin & Hsort) Hnow.
  rewrite Allow_filter. cbv zeta.
  set (kept := filter (fun ts => now - Second < ts) (timestamps rl)).
  assert (Hk_win : Forall (in_window now) kept).
  { apply Forall_forall. intros ts Hts.
    apply list_elem_of_filter in Hts as [Hlo Hin].
    eapply Forall_forall in Hwin; [|done].
    unfold in_window in *. lia. }
  assert (Hk_sort : StronglySorted Z.le kept)
    by (by apply StronglySorted_filter).
  assert (Hk_len : (length kept <= length (timestamps rl))%nat)
    by apply length_filter.
  unfold AdmissionWindow.
  destruct (Z.ltb_spec (Z.of_nat (length kept)) (rps rl)) as [Hroom|Hfull];
    cbn [snd timestamps rps].
  - split; [done|]. split; [rewrite length_app; simpl; lia|]. split.
    + apply Forall_app. split; [done|].
      repeat constructor; unfold Second; lia.
    + apply StronglySorted_snoc; [done|].
      eapply Forall_impl; [exact Hk_win|].
      unfold in_window. intros x. simpl. lia.
  - split; [done|]. split; [lia|]. done.
Qed.

Lemma Allow_run_keeps_window (N : Z) (instants : list Time) (prev t : Time)
  (rl : RateLimiter) :
  AdmissionWindow N prev rl ->
  StronglySorted Z.le (prev :: instants) ->
  last (prev :: instants) = Some t ->
  AdmissionWindow N t (Allow_run instants rl).2.
Proof.
  revert prev rl.
  induction instants as [|now rest IH]; intros prev rl Hinv Hs Hlast.
  - injection Hlast as <-. done.
  - apply StronglySorted_inv in Hs as [Hs Hall].
    apply Forall_cons in Hall as [Hnow _].
    pose proof (Allow_keeps_window N prev now rl Hinv Hnow) as Hstep.
    cbn [Allow_run]. destruct (Allow now rl) as [ok rl1]. cbn [snd] in Hstep.
    specialize (IH now rl1 Hstep Hs Hlast).
    by destruct (Allow_run rest rl1) as [l rl2].
Qed.

(** X6.  The window of a limiter built with limit [N], after any run of
    calls made at instants that do not go back and whose last one was made
    at [t]: the limit is still [N], no more than [N] timestamps are
    retained, each of them lies in the trailing second of [t], and they are
    in the order of their admission, oldest first. *)
Theorem Allow_run_window
  (N : Z) (rl0 : RateLimiter) (instants : list Time) (t : Time) :
  NewRateLimiter N = Some rl0 ->
  StronglySorted Z.le instants ->
  last instants = Some t ->
  AdmissionWindow N t (Allow_run instants rl0).2.
Proof.
  intros Hnew Hsorted Hlast.
  unfold NewRateLimiter in Hnew.
  destruct (Z.ltb_spec N 0) as [|HN]; [discriminate|].
  injection Hnew as <-.
  destruct instants as [|t0 rest]; [done|].
  apply (Allow_run_keeps_window N (t0 :: rest) t0).
  - repeat split; simpl; [lia|constructor|constructor].
  - constructor; [done|]. constructor; [lia|].
    by apply StronglySorted_inv in Hsorted as [_ ?].
  - destruct rest; [done|exact Hlast].
Qed.

Lemma Allow_run_window_witness :
  AdmissionWindow 2 (Second + 1)
    (Allow_run [0; 1; 2; Second + 1] {| timestamps := []; rps := 2 |}).2.
Proof.
  apply (Allow_run_window 2 {| timestamps := []; rps := 2 |}
           [0; 1; 2; Second + 1] (Second + 1)).
  - reflexivity.
  - repeat constructor; vm_compute; discriminate.
  - reflexivity.
Defined.

(** ** Rate limiter: bursts, full windows and quiet seconds *)

Lemma filter_all (P : Z -> Prop) `{!forall x, Decision (P x)} (l : list Z) :
  Forall P l -> filter P l = l.
Proof.
  induction 1 as [|x l Hx _ IH]; [done|].
  by rewrite filter_cons_True, IH.
Qed.

Lemma filter_none (P : Z -> Prop) `{!forall x, Decision (P x)} (l : list Z) :
  Forall (fun x => ~ P x) l -> filter P l = [].
Proof.
  induction 1 as [|x l Hx _ IH]; [done|].
  by rewrite filter_cons_False.
Qed.

Lemma replicate_snoc (k : nat) (t : Z) :
  replicate k t ++ [t] = replicate (S k) t.
Proof. induction k as [|k IH]; [done|]. simpl. by rewrite IH. Qed.

(** Calls at one instant [t] on a window that holds [k] timestamps [t]. *)
Lemma Allow_run_same_instant (N : Z) (t : Time) (m k : nat) :
  (Allow_run (replicate m t) {| timestamps := replicate k t; rps := N |}).1 =
  replicate (m `min` (Z.to_nat N - k)) true ++
  replicate (m - (Z.to_nat N - k)) false.
Proof.
  revert k. induction m as [|m IH]; intros k; [done|].
  cbn [replicate Allow_run]. rewrite Allow_filter. cbv zeta.
  cbn [timestamps rps].
  rewrite filter_all
    by (apply Forall_replicate; unfold Second; lia).
  rewrite length_replicate.
  destruct (Z.ltb_spec (Z.of_nat k) N) as [Hroom|Hfull].
  - rewrite replicate_snoc. specialize (IH (S k)).
    destruct (Allow_run _ _) as [l rl2]. cbn [fst] in *. rewrite IH.
    replace (Z.to_nat N - k)%nat with (S (Z.to_nat N - S k)) by lia.
    done.
  - specialize (IH k).
    destruct (Allow_run _ _) as [l rl2]. cbn [fst] in *. rewrite IH.
    replace (Z.to_nat N - k)%nat with 0%nat by lia.
    by rewrite Nat.min_0_r, !Nat.sub_0_r.
Qed.

(** X7.  A burst: of any number of calls made at one and the same instant
    on a limiter just built with limit [N], the first [N] are admitted and
    all the later ones are denied. *)
Theorem Allow_burst (N : Z) (rl0 : RateLimiter) (t : Time) (m : nat) :
  NewRateLimiter N = Some rl0 ->
  (Allow_run (replicate m t) rl0).1 =
  replicate (m `min` Z.to_nat N) true ++ replicate (m - Z.to_nat N) false.
Proof.
  intros Hnew. unfold NewRateLimiter in Hnew.
  destruct (N <? 0); [discriminate|]. injection Hnew as <-.
  change (@nil Z) with (replicate 0 t).
  rewrite (Allow_run_same_instant N t m 0).
  by rewrite Nat.sub_0_r.
Qed.

Lemma Allow_burst_witness :
  (Allow_run (replicate 5 7) {| timestamps := []; rps := 3 |}).1 =
  replicate (5 `min` Z.to_nat 3) true ++ replicate (5 - Z.to_nat 3) false.
Proof.
  apply (Allow_burst 3 {| timestamps := []; rps := 3 |} 7 5). reflexivity.
Defined.

(** X8.  A call that finds the window full of timestamps of the last
    second is denied and changes nothing: a denied call takes no room.  A
    call made when every retained timestamp is a second old or more is
    admitted, whatever the window held, provided the limit is at least
    one, and the window restarts from that call.  A limit of zero or less
    admits no call at all. *)
Theorem Allow_full_or_quiet (now : Time) (rl : RateLimiter) :
  (rps rl <= Z.of_nat (length (timestamps rl)) ->
   Forall (fun ts => now - Second < ts) (timestamps rl) ->
   Allow now rl = (false, rl)) /\
  (0 < rps rl ->
   Forall (fun ts => ts <= now - Second) (timestamps rl) ->
   Allow now rl = (true, {| timestamps := [now]; rps := rps rl |})) /\
  (rps rl <= 0 -> (Allow now rl).1 = false).
Proof.
  rewrite Allow_filter. cbv zeta. split; [|split].
  - intros Hfull Hall. rewrite filter_all by done.
    rewrite (proj2 (Z.ltb_ge _ _)) by done. by destruct rl.
  - intros Hpos Hall.
    rewrite filter_none
      by (eapply Forall_impl; [exact Hall|]; simpl; intros x; lia).
    simpl. by rewrite (proj2 (Z.ltb_lt _ _)).
  - intros Hzero.
    rewrite (proj2 (Z.ltb_ge _ _)) by lia. done.
Qed.

Lemma Allow_full_or_quiet_witness :
  Allow 9 {| timestamps := [7; 8]; rps := 2 |} =
    (false, {| timestamps := [7; 8]; rps := 2 |}) /\
  Allow (8 + Second) {| timestamps := [7; 8]; rps := 2 |} =
    (true, {| timestamps := [8 + Second]; rps := 2 |}) /\
  (Allow 9 {| timestamps := []; rps := 0 |}).1 = false.
Proof.
  split; [|split].
  - apply (proj1 (Allow_full_or_quiet 9 {| timestamps := [7; 8]; rps := 2 |})).
    + vm_compute. discriminate.
    + repeat constructor.
  - apply (proj1 (proj2 (Allow_full_or_quiet (8 + Second)
                           {| timestamps := [7; 8]; rps := 2 |}))).
    + reflexivity.
    + repeat constructor; vm_compute; discriminate.
  - apply (proj2 (proj2 (Allow_full_or_quiet 9
                           {| timestamps := []; rps := 0 |}))).
    vm_compute. discriminate.
Defined.

(** ** Load balancer: what a call returns *)

(** A check that reports a backend open changes nothing. *)
Lemma IsBackendOpen_true_unchanged (b : string) (now : Time)
  (cb : CircuitBreaker) :
  (IsBackendOpen b now cb).1 = true -> (IsBackendOpen b now cb).2 = cb.
Proof.
  unfold IsBackendOpen. destruct (backends cb !! b) as [st|]; [|done].
  destruct (state st); [done| |done].
  by destruct (timeout cb <? Since now (lastFailureTime st)).
Qed.

(** The scan: it stops at the first candidate found available, checked on
    the breaker as it was; or every candidate it went through was open,
    the breaker is as it was and the answer is the empty string. *)
Lemma Next_scan_result (pool : list string) (start : Z) (now : Time)
  (k : nat) (i : Z) (cb : CircuitBreaker) :
  (0 < length pool)%nat ->
  let out := Next_scan pool start now k i cb in
  (out.1 ∈ pool /\ (IsBackendOpen out.1 now cb).1 = false /\
   out.2 = (IsBackendOpen out.1 now cb).2) \/
  (out = ("", cb) /\
   forall (j : nat) (b : string), (j < k)%nat ->
     pool !! Z.to_nat (uint64_add start (i + Z.of_nat j)
                         mod Z.of_nat (length pool)) = Some b ->
     (IsBackendOpen b now cb).1 = true).
Proof.
  intros Hlen. revert i. induction k as [|k IH]; intros i; cbn [Next_scan].
  - right. split; [done|]. intros j b Hj. lia.
  - cbv zeta.
    assert (Hidx : (Z.to_nat (uint64_add start i mod Z.of_nat (length pool))
                    < length pool)%nat).
    { pose proof (Z.mod_pos_bound (uint64_add start i)
                    (Z.of_nat (length pool))). lia. }
    destruct (lookup_lt_is_Some_2 _ _ Hidx) as [b Hb]. rewrite Hb.
    destruct (IsBackendOpen b now cb) as [open cb'] eqn:Hopen.
    destruct open.
    + assert (cb' = cb) as ->.
      { pose proof (IsBackendOpen_true_unchanged b now cb) as H.
        rewrite Hopen in H. by apply H. }
      destruct (IH (i + 1)) as [Hfound|[Hout Hall]]; [by left|].
      right. split; [done|]. intros [|j] b' Hj Hb'.
      * rewrite Z.add_0_r in Hb'. rewrite Hb in Hb'. injection Hb' as <-.
        by rewrite Hopen.
      * apply (Hall j); [lia|].
        replace (i + 1 + Z.of_nat j) with (i + Z.of_nat (S j)) by lia.
        done.
    + left. cbn [fst snd]. rewrite Hopen.
      split; [by eapply list_elem_of_lookup_2|done].
Qed.

(** X9.  [Next] never changes the pool and never returns a backend from
    outside it: what it returns is a pool entry that the circuit breaker
    reported available at that call, the breaker being left as that one
    check left it, or the empty string with the breaker left as it was. *)
Theorem Next_returns_pool_member
  (now : Time) (lb : LoadBalancer) (cb : CircuitBreaker) :
  let out := Next now lb cb in
  pool out.1.2 = pool lb /\
  ((out.1.1 ∈ pool lb /\
    (IsBackendOpen out.1.1 now cb).1 = false /\
    out.2 = (IsBackendOpen out.1.1 now cb).2) \/
   (out.1.1 = "" /\ out.2 = cb)).
Proof.
  unfold Next. destruct (pool lb) as [|b0 l] eqn:Hpool.
  - simpl. rewrite Hpool. split; [done|]. by right.
  - cbn [length Nat.eqb]. cbv zeta.
    pose proof (Next_scan_result (b0 :: l) (uint64_add (current lb) 1) now
                  (S (length l)) 0 cb) as H.
    cbv zeta in H. cbn [length] in H.
    destruct (Next_scan _ _ _ _ _ _) as [b cb'].
    cbn [fst snd pool] in *. split; [done|].
    destruct H as [H|[H _]]; [lia|by left|].
    right. by injection H as -> ->.
Qed.

(** X10.  On a pool whose backends are all open [Next] returns the empty
    string, leaves the breaker as it was and still advances the counter.
    On a pool with a backend that is available, as long as the counter is
    not about to wrap, it returns a pool entry that is available: it gives
    up only when every backend is open. *)
Theorem Next_skips_open
  (now : Time) (lb : LoadBalancer) (cb : CircuitBreaker) :
  (pool lb <> [] ->
   (forall b, b ∈ pool lb -> (IsBackendOpen b now cb).1 = true) ->
   Next now lb cb =
   ("", {| pool := pool lb; current := uint64_add (current lb) 1 |}, cb)) /\
  (0 <= current lb ->
   current lb + 1 + Z.of_nat (length (pool lb)) <= 2 ^ 64 ->
   (exists b, b ∈ pool lb /\ (IsBackendOpen b now cb).1 = false) ->
   (Next now lb cb).1.1 ∈ pool lb /\
   (IsBackendOpen (Next now lb cb).1.1 now cb).1 = false).
Proof.
  split.
  - intros Hne Hall. unfold Next.
    destruct (pool lb) as [|b0 l] eqn:Hpool; [done|].
    cbn [length Nat.eqb]. cbv zeta.
    pose proof (Next_scan_result (b0 :: l) (uint64_add (current lb) 1) now
                  (S (length l)) 0 cb) as H.
    cbv zeta in H. cbn [length] in H.
    destruct (Next_scan _ _ _ _ _ _) as [b cb'].
    cbn [fst snd] in *.
    destruct H as [(Hin & Hav & _)|[H _]]; [lia| |].
    + rewrite Hall in Hav by done. discriminate.
    + by injection H as -> ->.
  - intros H0 Hmax (b & Hb & Hav). unfold Next.
    destruct (pool lb) as [|b0 l] eqn:Hpool; [by apply elem_of_nil in Hb|].
    cbn [length Nat.eqb]. cbv zeta.
    pose proof (Next_scan_result (b0 :: l) (uint64_add (current lb) 1) now
                  (S (length l)) 0 cb) as H.
    cbv zeta in H.
    destruct (Next_scan _ _ _ _ _ _) as [b' cb'].
    cbn [fst snd] in *.
    destruct H as [(Hin & Hav' & _)|[_ Hall]]; [simpl; lia|done|].
    exfalso.
    apply list_elem_of_lookup in Hb as [n Hn].
    pose proof (lookup_lt_Some _ _ _ Hn) as Hlt.
    cbn [length] in *.
    set (K := Z.of_nat (S (length l))) in *.
    assert (HK : 0 < K) by (unfold K; lia).
    set (j := Z.to_nat ((Z.of_nat n - (current lb + 1)) mod K)).
    pose proof (Z.mod_pos_bound (Z.of_nat n - (current lb + 1)) K HK) as Hj.
    assert (Hopen : (IsBackendOpen b now cb).1 = true).
    { apply (Hall j); [unfold j, K in *; lia|].
      rewrite (uint64_add_small (current lb) 1) by lia.
      rewrite uint64_add_small by (unfold j, K in *; lia).
      replace ((current lb + 1 + (0 + Z.of_nat j)) mod K) with (Z.of_nat n).
      - by rewrite Nat2Z.id.
      - unfold j. rewrite Z2Nat.id by lia.
        rewrite Z.add_0_l, Zplus_mod_idemp_r.
        replace (current lb + 1 + (Z.of_nat n - (current lb + 1)))
          with (Z.of_nat n) by lia.
        rewrite Z.mod_small; [done|unfold K; lia]. }
    rewrite Hopen in Hav. discriminate.
Qed.

Lemma Next_skips_open_witness :
  Next 6 (New ["a"]) opened_at_5 =
    ("", {| pool := ["a"]; current := uint64_add 0 1 |}, opened_at_5) /\
  (Next 6 (New ["a"; "b"]) opened_at_5).1.1 ∈ ["a"; "b"] /\
  (IsBackendOpen (Next 6 (New ["a"; "b"]) opened_at_5).1.1 6 opened_at_5).1
    = false.
Proof.
  split.
  - apply (proj1 (Next_skips_open 6 (New ["a"]) opened_at_5)).
    + discriminate.
    + intros b Hb. apply list_elem_of_singleton in Hb as ->.
      vm_compute. reflexivity.
  - apply (proj2 (Next_skips_open 6 (New ["a"; "b"]) opened_at_5)).
    + reflexivity.
    + vm_compute. discriminate.
    + exists "b". split; [set_solver|]. vm_compute. reflexivity.
Defined.

(** ** The proxy route as a whole *)

Lemma createHandler_eq :
  createHandler =
  RateLimiter_Middleware (CircuitBreaker_Middleware (Logging ServeHTTP)).
Proof. reflexivity. Qed.

(** The paths of the proxy handler on writer [w] and state [s]. *)
Ltac ServeHTTP_paths env w r s :=
  let backend := fresh "backend" in
  let lb1 := fresh "lb1" in
  let cb1 := fresh "cb1" in
  let HNext := fresh "HNext" in
  let Hb := fresh "Hb" in
  let Herr := fresh "Herr" in
  let HDo := fresh "HDo" in
  let resp := fresh "resp" in
  let elapsed := fresh "elapsed" in
  let w1 := fresh "w1" in
  let failed := fresh "failed" in
  destruct (Next (clock s) (lb s) (circuitBreak s))
    as [[backend lb1] cb1] eqn:HNext;
  destruct (decide (backend = "")) as [Hb|Hb];
  [ rewrite (ServeHTTP_no_backend env w r s backend lb1 cb1 HNext Hb)
  | destruct (NewRequest_err env (Method r) (targetURL backend r)) eqn:Herr;
    [ rewrite (ServeHTTP_bad_request env w r s backend lb1 cb1 HNext Hb Herr)
    | destruct (client_Do env
                  {| out_Method := Method r; out_URL := targetURL backend r;
                     out_Header := []; out_Body := Body r |})
        as [[resp|] elapsed] eqn:HDo;
      [ rewrite (ServeHTTP_answered env w r s backend lb1 cb1 HNext
                   resp elapsed Hb Herr HDo);
        destruct (io_Copy w (resp_Body resp)) as [w1 failed];
        destruct failed
      | rewrite (ServeHTTP_unreachable env w r s backend lb1 cb1 HNext
                   elapsed Hb Herr HDo) ] ] ].

Lemma balanced_IncResponse (m : Metrics) :
  balanced m -> balanced (IncResponse (IncRequest m)).
Proof.
  unfold balanced, IncResponse, IncRequest.
  cbn [RequestCount ResponseCount ErrorCount]. intros ->.
  unfold uint64_add. rewrite !Zplus_mod_idemp_l. f_equal. lia.
Qed.

Lemma balanced_IncError (m : Metrics) :
  balanced m -> balanced (IncError (IncRequest m)).
Proof.
  unfold balanced, IncError, IncRequest.
  cbn [RequestCount ResponseCount ErrorCount]. intros ->.
  unfold uint64_add. rewrite Zplus_mod_idemp_l, Zplus_mod_idemp_r.
  f_equal. lia.
Qed.

(** X11.  One request through the proxy route leaves the counters as they
    were (it was rejected before the proxy handler), or counts one request
    and one response, or counts one request and one error, and nothing
    else; so the request counter stays the sum of the response and error
    counters whenever it was, as it is when the server starts. *)
Theorem createHandler_counters
  {W : Type} `{HW : http_ResponseWriter W}
  (env : Env) (w : W) (r : Request) (s : World) :
  let m := metrics s in
  let m' := metrics (createHandler W _ env w r s).2 in
  (m' = m \/ m' = IncResponse (IncRequest m) \/ m' = IncError (IncRequest m)) /\
  (balanced m -> balanced m') /\
  balanced Metrics_New.
Proof.
  cbv zeta.
  assert (Hcases :
    metrics (createHandler W _ env w r s).2 = metrics s \/
    metrics (createHandler W _ env w r s).2
      = IncResponse (IncRequest (metrics s)) \/
    metrics (createHandler W _ env w r s).2
      = IncError (IncRequest (metrics s))).
  { rewrite createHandler_eq. unfold RateLimiter_Middleware.
    destruct (Allow (clock s) (limiter s)) as [ok rl].
    destruct ok; cbn [negb]; [|by left].
    unfold CircuitBreaker_Middleware.
    destruct (IsBackendOpen _ _ _) as [open cb].
    destruct open; [by left|].
    unfold Logging.
    ServeHTTP_paths env (wrap (wrap w)) r
      (set_circuitBreak cb (set_limiter rl s));
      cbn; auto. }
  split; [exact Hcases|]. split; [|reflexivity].
  intros Hbal.
  destruct Hcases as [->|[->| ->]];
    [done|by apply balanced_IncResponse|by apply balanced_IncError].
Qed.

Lemma createHandler_counters_witness :
  balanced (metrics (createHandler response _ env_unreachable fresh_response
                       sample_request one_backend_server).2).
Proof.
  apply (proj1 (proj2 (createHandler_counters env_unreachable fresh_response
                         sample_request one_backend_server))).
  reflexivity.
Defined.

(** What [Next] returns: a pool entry and the breaker as the check of that
    entry left it, or the empty string and the breaker as it was; the pool
    stays. *)
Lemma Next_member (now : Time) (l : LoadBalancer) (cb : CircuitBreaker)
  (b : string) (l1 : LoadBalancer) (cb1 : CircuitBreaker) :
  Next now l cb = (b, l1, cb1) ->
  pool l1 = pool l /\
  ((b ∈ pool l /\ cb1 = (IsBackendOpen b now cb).2) \/
   (b = "" /\ cb1 = cb)).
Proof.
  unfold Next. destruct (pool l) as [|b0 l0] eqn:Hpool.
  - simpl. intros [= <- <- <-]. rewrite Hpool. auto.
  - cbn [length Nat.eqb]. cbv zeta.
    pose proof (Next_scan_result (b0 :: l0) (uint64_add (current l) 1) now
                  (S (length l0)) 0 cb) as H.
    cbv zeta in H. cbn [length] in H.
    destruct (Next_scan _ _ _ _ _ _) as [b' cb'].
    cbn [fst snd] in H. intros [= <- <- <-]. cbn [pool].
    split; [done|].
    destruct H as [(Hin & _ & Hcb)|[H _]]; [lia|auto|].
    injection H as -> ->. auto.
Qed.

(** X12.  One request through the proxy route is handed to at most one
    backend, once: the list of forwarded requests is as it was, or longer
    by the one request built for a backend of the pool.  There is no
    retry and no second backend. *)
Theorem createHandler_forwards_at_most_once
  {W : Type} `{HW : http_ResponseWriter W}
  (env : Env) (w : W) (r : Request) (s : World) :
  let s' := (createHandler W _ env w r s).2 in
  forwarded s' = forwarded s \/
  exists backend,
    backend ∈ pool (lb s) /\ backend <> "" /\
    forwarded s' = forwarded s ++ [proxyRequest backend r].
Proof.
  cbv zeta. rewrite createHandler_eq. unfold RateLimiter_Middleware.
  destruct (Allow (clock s) (limiter s)) as [ok rl].
  destruct ok; cbn [negb]; [|by left].
  unfold CircuitBreaker_Middleware.
  destruct (IsBackendOpen _ _ _) as [open cb].
  destruct open; [by left|].
  unfold Logging.
  ServeHTTP_paths env (wrap (wrap w)) r
    (set_circuitBreak cb (set_limiter rl s));
    cbn; auto;
    right; exists backend;
    (split; [|by split]);
    apply Next_member in HNext as (_ & [[? _]|[? _]]); done.
Qed.

(** X13.  A request the rate limiter denies is answered 429 and changes
    nothing but the limiter's window and the log: the circuit breaker, the
    load balancer and the counters are not touched and no backend is
    contacted.  A request the limiter admits and that finds the circuit
    of its target open is answered 503 in the same way, and keeps the
    place it took in the limiter's window. *)
Theorem createHandler_rejections
  {W : Type} `{HW : http_ResponseWriter W}
  (env : Env) (w : W) (r : Request) (s : World) :
  (forall rl,
     Allow (clock s) (limiter s) = (false, rl) ->
     createHandler W _ env w r s =
     (http_Error w "Rate limit exceeded" StatusTooManyRequests,
      log_Printf (LogError "Rate limit exceeded" StatusTooManyRequests)
        (set_limiter rl s))) /\
  (forall rl cb,
     Allow (clock s) (limiter s) = (true, rl) ->
     IsBackendOpen (URL_Host r) (clock s) (circuitBreak s) = (true, cb) ->
     createHandler W _ env w r s =
     (http_Error w "Circuit breaker is open" StatusServiceUnavailable,
      log_Printf (LogError "Circuit breaker is open" StatusServiceUnavailable)
        (set_limiter rl s))).
Proof.
  rewrite createHandler_eq. split.
  - intros rl Hdenied. by apply RateLimiter_Middleware_denied.
  - intros rl cb Hok Hopen.
    rewrite (RateLimiter_Middleware_admitted _ env w r s rl Hok).
    rewrite (CircuitBreaker_Middleware_open _ env w r (set_limiter rl s) cb)
      by exact Hopen.
    pose proof (IsBackendOpen_true_unchanged (URL_Host r) (clock s)
                  (circuitBreak s)) as Hsame.
    rewrite Hopen in Hsame. cbn [fst snd] in Hsame.
    rewrite Hsame by done. done.
Qed.

Lemma createHandler_rejections_witness :
  createHandler response _ env_not_found fresh_response sample_request
    zero_limit_server =
  (http_Error fresh_response "Rate limit exceeded" StatusTooManyRequests,
   log_Printf (LogError "Rate limit exceeded" StatusTooManyRequests)
     (set_limiter {| timestamps := []; rps := 0 |} zero_limit_server)) /\
  createHandler response _ env_not_found fresh_response sample_request
    tripped_server =
  (http_Error fresh_response "Circuit breaker is open"
     StatusServiceUnavailable,
   log_Printf (LogError "Circuit breaker is open" StatusServiceUnavailable)
     (set_limiter {| timestamps := [0]; rps := 100 |} tripped_server)).
Proof.
  split.
  - apply (proj1 (createHandler_rejections env_not_found fresh_response
                    sample_request zero_limit_server)).
    reflexivity.
  - apply (proj2 (createHandler_rejections env_not_found fresh_response
                    sample_request tripped_server)
             _ (circuitBreak tripped_server)).
    + reflexivity.
    + vm_compute. reflexivity.
Defined.

(** ** The capturing writer *)

(** X14.  The capturing writer passes every call on to the writer it
    wraps, unchanged and in order, and what it records is the code of the
    last [WriteHeader] call, or zero when there was none: a response that
    is only written to goes out with status 200 and is recorded as 0. *)
Theorem ResponseWriter_calls
  {W : Type} `{HW : http_ResponseWriter W}
  (l : list WriterCall) (w : W) (sc : Z) :
  calls l {| inner := w; StatusCode := sc |} =
    {| inner := calls l w; StatusCode := last_code l sc |} /\
  (forall b : string,
     StatusCode (calls [CallWrite b] (wrap fresh_response)) = 0 /\
     fst <$> sent (inner (calls [CallWrite b] (wrap fresh_response)))
       = Some 200).
Proof.
  split; [|done].
  revert w sc. induction l as [|c l IH]; intros w sc; [done|].
  destruct c; cbn [calls last_code]; try apply IH.
  cbn [Write ResponseWriter_ResponseWriter inner StatusCode].
  destruct (Write b w) as [w' failed]. apply IH.
Qed.

(** ** The proxy handler: the status it records and the status it sends *)

(** X15.  On a capturing writer the proxy handler records a status of 500
    or more, the one it logs with the error, on each of its failing paths,
    and counts one error; when the backend's answer was copied in full it
    records nothing, the status stays 0 although 200 went out, logs no
    error and counts one response.  So the stages around it see a failure
    exactly when the handler counted an error. *)
Theorem ServeHTTP_recorded_status
  {W : Type} `{HW : http_ResponseWriter W}
  (env : Env) (w : W) (r : Request) (s : World) :
  let out := ServeHTTP (ResponseWriter W) _ env (wrap w) r s in
  (StatusCode out.1 = 0 /\
   logged out.2 = logged s /\
   metrics out.2 = IncResponse (IncRequest (metrics s))) \/
  (500 <= StatusCode out.1 /\
   (exists msg, logged out.2 = logged s ++ [LogError msg (StatusCode out.1)]) /\
   metrics out.2 = IncError (IncRequest (metrics s))).
Proof.
  cbv zeta.
  destruct (Next (clock s) (lb s) (circuitBreak s))
    as [[backend lb1] cb1] eqn:HNext.
  destruct (decide (backend = "")) as [Hb|Hb].
  { rewrite (ServeHTTP_no_backend env (wrap w) r s backend lb1 cb1 HNext Hb).
    unfold wrap. rewrite http_Error_wrapped. right. cbn.
    split; [done|]. split; [by eexists|done]. }
  destruct (NewRequest_err env (Method r) (targetURL backend r)) eqn:Herr.
  { rewrite (ServeHTTP_bad_request env (wrap w) r s backend lb1 cb1 HNext
               Hb Herr).
    unfold wrap. rewrite http_Error_wrapped. right. cbn.
    split; [done|]. split; [by eexists|done]. }
  destruct (client_Do env
              {| out_Method := Method r; out_URL := targetURL backend r;
                 out_Header := []; out_Body := Body r |})
    as [[resp|] elapsed] eqn:HDo.
  - rewrite (ServeHTTP_answered env (wrap w) r s backend lb1 cb1 HNext
               resp elapsed Hb Herr HDo).
    rewrite io_Copy_wrapped.
    destruct (io_Copy w (resp_Body resp)) as [w1 failed]. cbn [fst snd].
    destruct failed.
    + rewrite http_Error_wrapped. right. cbn.
      split; [done|]. split; [by eexists|done].
    + left. by cbn.
  - rewrite (ServeHTTP_unreachable env (wrap w) r s backend lb1 cb1 HNext
               elapsed Hb Herr HDo).
    unfold wrap. rewrite http_Error_wrapped. right. cbn.
    split; [done|]. split; [by eexists|done].
Qed.

(** An error written on a connection that takes writes. *)
Lemma http_Error_response (w : response) (msg : string) (code : Z) :
  broken w = false ->
  http_Error w msg code =
  {| hdr := error_headers (hdr w);
     sent := Some (default (code, error_headers (hdr w)) (sent w));
     body := body w +:+ msg +:+ LF;
     broken := false |}.
Proof.
  intros Hw. unfold http_Error, error_headers. cbn.
  unfold response_Write, response_WriteHeader. cbn.
  destruct (sent w) as [x|] eqn:Hsent; cbn; rewrite ?Hsent, Hw; cbn;
    by rewrite ?Hsent.
Qed.

(** X16.  When the backend's body breaks off with a read error while the
    caller's connection is sound and no status had gone out, what the
    caller receives depends on how far the copy got.  If no byte had been
    copied, the response is the 500 error with the error's headers.  If
    some bytes had been copied, status 200 had gone out with them: the
    response keeps status 200 and the headers sent then, and the error
    text follows the partial body. *)
Theorem ServeHTTP_copy_failure_response
  (env : Env) (w : response) (r : Request) (s : World)
  (backend : string) (lb1 : LoadBalancer) (cb1 : CircuitBreaker)
  (resp : BackendResponse) (elapsed : N) :
  Next (clock s) (lb s) (circuitBreak s) = (backend, lb1, cb1) ->
  backend <> "" ->
  NewRequest_err env (Method r) (targetURL backend r) = false ->
  client_Do env {| out_Method := Method r; out_URL := targetURL backend r;
                   out_Header := []; out_Body := Body r |}
    = (Some resp, elapsed) ->
  broken w = false ->
  sent w = None ->
  readErr (resp_Body resp) = true ->
  (ServeHTTP response _ env w r s).1 =
  {| hdr := error_headers (hdr w);
     sent := if decide (bytes (resp_Body resp) = "")
             then Some (StatusInternalServerError, error_headers (hdr w))
             else Some (200, hdr w);
     body := (body w +:+ bytes (resp_Body resp))
               +:+ "Error copying response" +:+ LF;
     broken := false |}.
Proof.
  intros HNext Hb Herr HDo Hw Hsent Hread.
  rewrite (ServeHTTP_answered env w r s backend lb1 cb1 HNext resp elapsed)
    by done.
  unfold io_Copy. rewrite io_Copy_chunks_response by done.
  rewrite Hread. cbn [fst]. rewrite http_Error_response by done.
  cbn [hdr sent body]. rewrite Hsent. unfold bytes.
  by destruct (decide _).
Qed.

Lemma ServeHTTP_copy_failure_response_witness :
  (ServeHTTP response _ env_truncated fresh_response sample_request
     one_backend_server).1 =
  {| hdr := error_headers ∅;
     sent := Some (200, ∅);
     body := "parError copying response" +:+ LF;
     broken := false |}.
Proof.
  rewrite (ServeHTTP_copy_failure_response env_truncated fresh_response
             sample_request one_backend_server "http://localhost:8080"
             {| pool := ["http://localhost:8080"]; current := 1 |}
             (IsBackendOpen "http://localhost:8080" 0 NewCircuitBreaker).2
             {| resp_StatusCode := 200; resp_Header := [];
                resp_Body := {| chunks := ["par"]; readErr := true |} |}
             3%N);
    [reflexivity|vm_compute; reflexivity|discriminate|reflexivity
    |reflexivity|reflexivity|reflexivity|reflexivity].
Defined.

(** ** The chain, in two steps *)

(** X17.  Chaining nothing gives the handler back, and chaining a list of
    middleware made of two parts is chaining the second part, then the
    first part around the result: the first-named middleware always ends up
    outermost. *)
Theorem Chain_app (h : Handler) (m1 m2 : list Middleware) :
  Chain h [] = h /\
  Chain h (m1 ++ m2) = Chain (Chain h m2) m1.
Proof.
  split; [reflexivity|].
  by rewrite !Chain_foldr, foldr_app.
Qed.

(** ** The circuit breaker stage on the proxy route *)

Section HostRecord.

Variables (host : string) (st0 : backendState) (threshold : Z).

(** The breaker holds [st0] for [host], under the given threshold. *)
Let holds (cb : CircuitBreaker) : Prop :=
  backends cb !! host = Some st0 /\ failureThreshold cb = threshold.

Lemma holds_other_backend (b : string) (now : Time) (cb : CircuitBreaker) :
  b <> host -> holds cb ->
  holds (OnBackendFailure b now cb) /\
  holds (OnBackendSuccess b cb) /\
  holds (IsBackendOpen b now cb).2.
Proof.
  intros Hne [Hlook Hth]. unfold holds.
  destruct (CircuitBreaker_lookup_ne b host now cb Hne) as (-> & -> & ->).
  destruct (CircuitBreaker_settings b now cb) as [(-> & -> & ->) _].
  done.
Qed.

Lemma holds_Next (now : Time) (l : LoadBalancer) (cb : CircuitBreaker)
  (b : string) (l1 : LoadBalancer) (cb1 : CircuitBreaker) :
  host ∉ pool l -> holds cb ->
  Next now l cb = (b, l1, cb1) ->
  holds cb1 /\ (b <> "" -> b <> host).
Proof.
  intros Hout Hcb HNext.
  apply Next_member in HNext as (_ & [[Hin ->]|[-> ->]]).
  - assert (b <> host) by (intros ->; done).
    split; [|done]. by apply holds_other_backend.
  - done.
Qed.

Lemma holds_failure (now : Time) (cb : CircuitBreaker) :
  holds cb ->
  backends (OnBackendFailure host now cb) !! host =
  Some {| state := if threshold <=? int_add (failureCount st0) 1
                   then StateOpen else state st0;
          failureCount := int_add (failureCount st0) 1;
          lastFailureTime := now |}.
Proof.
  intros [Hlook <-]. by rewrite OnBackendFailure_lookup, Hlook.
Qed.

Lemma holds_success (cb : CircuitBreaker) :
  holds cb ->
  backends (OnBackendSuccess host cb) !! host =
  Some {| state := match state st0 with
                   | StateHalfOpen => StateClosed
                   | x => x
                   end;
          failureCount := 0;
          lastFailureTime := lastFailureTime st0 |}.
Proof.
  intros [Hlook _]. unfold OnBackendSuccess. rewrite Hlook. cbn.
  by rewrite lookup_insert_eq.
Qed.

End HostRecord.

(** X18.  On the proxy route the circuit breaker stage keeps its books
    under the host of the request URL, not under the backend that served
    the request.  For a request that passes the rate limiter and the
    circuit check, its host being no entry of the pool: when the proxy
    handler counts a response, the record of the host gets a success (count
    zero, closed if it was half-open); when the proxy handler counts an
    error, whichever it is and whichever backend was tried, if any,
    the record of the host gets one more failure, dated at the end of the
    request, and opens when the count has reached the threshold. *)
Theorem createHandler_charges_host
  {W : Type} `{HW : http_ResponseWriter W}
  (env : Env) (w : W) (r : Request) (s : World)
  (rl : RateLimiter) (cb0 : CircuitBreaker) (st0 : backendState) :
  Allow (clock s) (limiter s) = (true, rl) ->
  IsBackendOpen (URL_Host r) (clock s) (circuitBreak s) = (false, cb0) ->
  backends cb0 !! URL_Host r = Some st0 ->
  URL_Host r ∉ pool (lb s) ->
  let s' := (createHandler W _ env w r s).2 in
  (metrics s' = IncResponse (IncRequest (metrics s)) /\
   backends (circuitBreak s') !! URL_Host r =
   Some {| state := match state st0 with
                    | StateHalfOpen => StateClosed
                    | x => x
                    end;
           failureCount := 0;
           lastFailureTime := lastFailureTime st0 |}) \/
  (metrics s' = IncError (IncRequest (metrics s)) /\
   backends (circuitBreak s') !! URL_Host r =
   Some {| state := if failureThreshold (circuitBreak s)
                       <=? int_add (failureCount st0) 1
                    then StateOpen else state st0;
           failureCount := int_add (failureCount st0) 1;
           lastFailureTime := clock s' |}).
Proof.
  intros Hok Hopen Hst0 Hout. cbv zeta.
  rewrite createHandler_eq.
  rewrite (RateLimiter_Middleware_admitted _ env w r s rl Hok).
  unfold CircuitBreaker_Middleware.
  cbn [clock circuitBreak set_limiter]. rewrite Hopen.
  assert (H0 : backends cb0 !! URL_Host r = Some st0 /\
               failureThreshold cb0 = failureThreshold (circuitBreak s)).
  { split; [done|].
    destruct (CircuitBreaker_settings (URL_Host r) (clock s) (circuitBreak s))
      as [(_ & _ & Hth) _].
    by rewrite Hopen in Hth. }
  unfold Logging.
  set (s2 := set_circuitBreak cb0 (set_limiter rl s)).
  destruct (Next (clock s2) (lb s2) (circuitBreak s2))
    as [[backend lb1] cb1] eqn:HNext.
  destruct (holds_Next (URL_Host r) st0 _ (clock s2) (lb s2)
              (circuitBreak s2) backend lb1 cb1 Hout H0 HNext)
    as [H1 Hne].
  destruct (decide (backend = "")) as [Hb|Hb].
  { rewrite (ServeHTTP_no_backend env (wrap (wrap w)) r s2 backend lb1 cb1
               HNext Hb).
    unfold wrap. rewrite !http_Error_wrapped. right.
    with_strategy opaque [OnBackendFailure OnBackendSuccess] cbn.
    split; [done|].
    by apply (holds_failure _ _ (failureThreshold (circuitBreak s))). }
  destruct (NewRequest_err env (Method r) (targetURL backend r)) eqn:Herr.
  { rewrite (ServeHTTP_bad_request env (wrap (wrap w)) r s2 backend lb1 cb1
               HNext Hb Herr).
    unfold wrap. rewrite !http_Error_wrapped. right.
    with_strategy opaque [OnBackendFailure OnBackendSuccess] cbn.
    split; [done|].
    by apply (holds_failure _ _ (failureThreshold (circuitBreak s))). }
  specialize (Hne Hb).
  destruct (client_Do env
              {| out_Method := Method r; out_URL := targetURL backend r;
                 out_Header := []; out_Body := Body r |})
    as [[resp|] elapsed] eqn:HDo.
  - rewrite (ServeHTTP_answered env (wrap (wrap w)) r s2 backend lb1 cb1
               HNext resp elapsed Hb Herr HDo).
    rewrite !io_Copy_wrapped.
    destruct (io_Copy w (resp_Body resp)) as [w1 failed]. cbn [fst snd].
    destruct (holds_other_backend (URL_Host r) st0 _ backend 0 cb1 Hne H1)
      as (_ & H2 & _).
    destruct failed.
    + rewrite !http_Error_wrapped. right.
    with_strategy opaque [OnBackendFailure OnBackendSuccess] cbn.
      split; [done|].
      by apply (holds_failure _ _ (failureThreshold (circuitBreak s))).
    + left.
      with_strategy opaque [OnBackendFailure OnBackendSuccess] cbn. split; [done|].
      by apply (holds_success _ _ (failureThreshold (circuitBreak s))).
  - rewrite (ServeHTTP_unreachable env (wrap (wrap w)) r s2 backend lb1 cb1
               HNext elapsed Hb Herr HDo).
    unfold wrap. rewrite !http_Error_wrapped. right.
    with_strategy opaque [OnBackendFailure OnBackendSuccess] cbn.
    split; [done|].
    apply (holds_failure _ _ (failureThreshold (circuitBreak s))).
    by apply holds_other_backend.
Qed.

Lemma createHandler_charges_host_witness :
  let s' := (createHandler response _ env_unreachable fresh_response
               sample_request one_backend_server).2 in
  (metrics s' = IncResponse (IncRequest (metrics one_backend_server)) /\
   backends (circuitBreak s') !! "" =
   Some {| state := StateClosed; failureCount := 0;
           lastFailureTime := 0 |}) \/
  (metrics s' = IncError (IncRequest (metrics one_backend_server)) /\
   backends (circuitBreak s') !! "" =
   Some {| state := if 5 <=? int_add 0 1 then StateOpen else StateClosed;
           failureCount := int_add 0 1;
           lastFailureTime := clock s' |}).
Proof.
  apply (createHandler_charges_host env_unreachable fresh_response
           sample_request one_backend_server
           {| timestamps := [0]; rps := 100 |}
           (IsBackendOpen "" 0 NewCircuitBreaker).2 closedState).
  - reflexivity.
  - vm_compute. reflexivity.
  - vm_compute. reflexivity.
  - intros H. apply list_elem_of_singleton in H. discriminate.
Defined.

(** ** The logging stage around the proxy handler *)

(** The proxy handler does on a capturing writer what it does on the
    writer below. *)
Lemma ServeHTTP_wrapped {W : Type} `{HW : http_ResponseWriter W}
  (env : Env) (w : W) (r : Request) (s : World) :
  inner (ServeHTTP (ResponseWriter W) _ env (wrap w) r s).1
    = (ServeHTTP W _ env w r s).1 /\
  (ServeHTTP (ResponseWriter W) _ env (wrap w) r s).2
    = (ServeHTTP W _ env w r s).2.
Proof.
  destruct (Next (clock s) (lb s) (circuitBreak s))
    as [[backend lb1] cb1] eqn:HNext.
  destruct (decide (backend = "")) as [Hb|Hb].
  { rewrite (ServeHTTP_no_backend env (wrap w) r s backend lb1 cb1 HNext Hb).
    rewrite (ServeHTTP_no_backend env w r s backend lb1 cb1 HNext Hb).
    unfold wrap. by rewrite http_Error_wrapped. }
  destruct (NewRequest_err env (Method r) (targetURL backend r)) eqn:Herr.
  { rewrite (ServeHTTP_bad_request env (wrap w) r s backend lb1 cb1 HNext
               Hb Herr).
    rewrite (ServeHTTP_bad_request env w r s backend lb1 cb1 HNext Hb Herr).
    unfold wrap. by rewrite http_Error_wrapped. }
  destruct (client_Do env
              {| out_Method := Method r; out_URL := targetURL backend r;
                 out_Header := []; out_Body := Body r |})
    as [[resp|] elapsed] eqn:HDo.
  - rewrite (ServeHTTP_answered env (wrap w) r s backend lb1 cb1 HNext
               resp elapsed Hb Herr HDo).
    rewrite (ServeHTTP_answered env w r s backend lb1 cb1 HNext
               resp elapsed Hb Herr HDo).
    rewrite io_Copy_wrapped.
    destruct (io_Copy w (resp_Body resp)) as [w1 failed]. cbn [fst snd].
    destruct failed; [|done].
    by rewrite http_Error_wrapped.
  - rewrite (ServeHTTP_unreachable env (wrap w) r s backend lb1 cb1 HNext
               elapsed Hb Herr HDo).
    rewrite (ServeHTTP_unreachable env w r s backend lb1 cb1 HNext
               elapsed Hb Herr HDo).
    unfold wrap. by rewrite http_Error_wrapped.
Qed.

(** The clock does not go back during a request. *)
Lemma ServeHTTP_clock {W : Type} `{HW : http_ResponseWriter W}
  (env : Env) (w : W) (r : Request) (s : World) :
  clock s <= clock (ServeHTTP W _ env w r s).2.
Proof.
  ServeHTTP_paths env w r s; cbn; lia.
Qed.

(** X19.  The logging stage around the proxy handler changes nothing of
    what the caller receives nor of what the proxy handler does to the
    server: it only adds one request line to the log, after the handler's
    own error line if there is one, with the method, the path, the status
    the handler recorded and the time the request took, which is never
    negative. *)
Theorem Logging_ServeHTTP
  {W : Type} `{HW : http_ResponseWriter W}
  (env : Env) (w : W) (r : Request) (s : World) :
  let out := ServeHTTP W _ env w r s in
  let wrapped := (ServeHTTP (ResponseWriter W) _ env (wrap w) r s).1 in
  Logging ServeHTTP W _ env w r s =
  (out.1,
   log_Printf (LogRequest (Method r) (URL_Path r) (StatusCode wrapped)
                 (clock out.2 - clock s)) out.2) /\
  0 <= clock out.2 - clock s.
Proof.
  cbv zeta. split.
  - unfold Logging.
    destruct (ServeHTTP_wrapped env w r s) as [Hw Hs].
    destruct (ServeHTTP (ResponseWriter W) _ env (wrap w) r s)
      as [wrapped s1].
    cbn [fst snd] in *. by rewrite Hw, Hs.
  - pose proof (ServeHTTP_clock env w r s). lia.
Qed.

(** ** Total outage *)

(** On a pool whose backends are all open [Next] gives the empty string
    and leaves the breaker alone. *)
Lemma Next_all_open_eq (now : Time) (l : LoadBalancer) (cb : CircuitBreaker) :
  pool l <> [] ->
  (forall b, b ∈ pool l -> (IsBackendOpen b now cb).1 = true) ->
  Next now l cb =
  ("", {| pool := pool l; current := uint64_add (current l) 1 |}, cb).
Proof.
  intros Hne Hall. unfold Next.
  destruct (pool l) as [|b0 l0] eqn:Hpool; [done|].
  cbn [length Nat.eqb]. cbv zeta.
  pose proof (Next_scan_result (b0 :: l0) (uint64_add (current l) 1) now
                (S (length l0)) 0 cb) as H.
  cbv zeta in H. cbn [length] in H.
  destruct (Next_scan _ _ _ _ _ _) as [b cb'].
  cbn [fst snd] in *.
  destruct H as [(Hin & Hav & _)|[H _]]; [lia| |].
  - rewrite Hall in Hav by done. discriminate.
  - by injection H as -> ->.
Qed.

(** X20.  Total outage: when every backend of the pool is open, the proxy
    handler answers 503, counts one request and one error, contacts no
    backend and reports nothing to the circuit breaker, which stays as it
    was; the rotation counter still advances by one. *)
Theorem ServeHTTP_total_outage
  {W : Type} `{HW : http_ResponseWriter W}
  (env : Env) (w : W) (r : Request) (s : World) :
  pool (lb s) <> [] ->
  (forall b, b ∈ pool (lb s) ->
     (IsBackendOpen b (clock s) (circuitBreak s)).1 = true) ->
  ServeHTTP W _ env w r s =
  (http_Error w "No backends available" StatusServiceUnavailable,
   {| clock := clock s;
      metrics := IncError (IncRequest (metrics s));
      limiter := limiter s;
      lb := {| pool := pool (lb s);
               current := uint64_add (current (lb s)) 1 |};
      circuitBreak := circuitBreak s;
      logged := logged s ++
                [LogError "No backends available" StatusServiceUnavailable];
      forwarded := forwarded s |}).
Proof.
  intros Hne Hall.
  by rewrite (ServeHTTP_no_backend env w r s "" _ _
                (Next_all_open_eq _ _ _ Hne Hall)).
Qed.

Lemma ServeHTTP_total_outage_witness :
  (ServeHTTP response _ env_not_found fresh_response sample_request
     (set_circuitBreak
        (Nat.iter 5 (OnBackendFailure "http://localhost:8080" 0)
           NewCircuitBreaker)
        one_backend_server)).2 =
  {| clock := 0;
     metrics := IncError (IncRequest Metrics_New);
     limiter := {| timestamps := []; rps := 100 |};
     lb := {| pool := ["http://localhost:8080"];
              current := uint64_add 0 1 |};
     circuitBreak :=
       Nat.iter 5 (OnBackendFailure "http://localhost:8080" 0)
         NewCircuitBreaker;
     logged := [LogError "No backends available" StatusServiceUnavailable];
     forwarded := [] |}.
Proof.
  rewrite (ServeHTTP_total_outage env_not_found fresh_response sample_request
             (set_circuitBreak
                (Nat.iter 5 (OnBackendFailure "http://localhost:8080" 0)
                   NewCircuitBreaker)
                one_backend_server)).
  - reflexivity.
  - discriminate.
  - intros b Hb. apply list_elem_of_singleton in Hb as ->.
    vm_compute. reflexivity.
Defined.

(** ** Configuration *)

Lemma Split_comma_nonempty (s : string) : Split_comma s <> [].
Proof.
  destruct s as [|c s]; [done|]. simpl.
  destruct (Ascii.eqb c comma); [done|]. by destruct (Split_comma s).
Qed.

Lemma Join_Split_comma (s : string) : Join_comma (Split_comma s) = s.
Proof.
  induction s as [|c s IH]; [done|]. cbn [Split_comma].
  destruct (Ascii.eqb_spec c comma) as [->|Hc].
  - pose proof (Split_comma_nonempty s).
    destruct (Split_comma s) as [|p ps] eqn:Hs; [done|].
    cbn [Join_comma]. cbn [Join_comma] in IH.
    change ("" +:+ "," +:+ Join_comma (p :: ps))
      with (String "," (Join_comma (p :: ps))).
    by rewrite IH.
  - destruct (Split_comma s) as [|p ps] eqn:Hs.
    + by pose proof (Split_comma_nonempty s).
    + rewrite <- IH. cbn [Join_comma]. by destruct ps.
Qed.

Lemma Split_comma_pieces (s : string) :
  Forall (fun piece => has_comma piece = false) (Split_comma s).
Proof.
  induction s as [|c s IH]; [by repeat constructor|]. cbn [Split_comma].
  destruct (Ascii.eqb c comma) eqn:Hc.
  - by constructor.
  - destruct (Split_comma s) as [|p ps]; [by repeat constructor; cbn; rewrite Hc|].
    apply Forall_cons in IH as [Hp Hps].
    constructor; [|done]. cbn. by rewrite Hc, Hp.
Qed.

(** X21.  The backends [ParseFlags] hands to the server are the pieces of
    the flag's value between its commas, the default value when the flag
    is left out: none of them holds a comma, joining them with commas gives
    the value back, and there is always at least one, so that a server
    built from the flags never has an empty pool.  A value that is empty,
    or has two commas in a row, gives an empty-string backend. *)
Theorem ParseFlags_backends (f : Flags) :
  let value := default "http://localhost:8080" (flag_backends f) in
  Backends (ParseFlags f) <> [] /\
  Join_comma (Backends (ParseFlags f)) = value /\
  Forall (fun piece => has_comma piece = false) (Backends (ParseFlags f)) /\
  (flag_backends f = None ->
   Backends (ParseFlags f) = ["http://localhost:8080"]) /\
  (flag_backends f = Some "" -> Backends (ParseFlags f) = [""]).
Proof.
  cbv zeta. unfold ParseFlags. cbn [Backends].
  split; [apply Split_comma_nonempty|].
  split; [apply Join_Split_comma|].
  split; [apply Split_comma_pieces|].
  split; by intros ->.
Qed.

Lemma ParseFlags_backends_witness :
  Backends (ParseFlags {| flag_listen := None; flag_read_timeout := None;
                          flag_write_timeout := None;
                          flag_rate_limit := Some 20;
                          flag_backends := None |})
    = ["http://localhost:8080"] /\
  Backends (ParseFlags {| flag_listen := None; flag_read_timeout := None;
                          flag_write_timeout := None;
                          flag_rate_limit := None;
                          flag_backends := Some "" |})
    = [""].
Proof.
  split.
  - apply (proj1 (proj2 (proj2 (proj2 (ParseFlags_backends _))))).
    reflexivity.
  - apply (proj2 (proj2 (proj2 (proj2 (ParseFlags_backends _))))).
    reflexivity.
Defined.

(** The pieces of a list of two backends. *)
Example Split_comma_two :
  Split_comma "http://localhost:8080,http://localhost:8081" =
  ["http://localhost:8080"; "http://localhost:8081"].
Proof. reflexivity. Qed.
